(** * pbr.version.SemanticVersion: a shallow embedding and its properties

    The development follows [pbr/version.py].  Python integers are [Z],
    text is [string] (characters are ASCII code points), [None]-able
    attributes are [option], and a call that may raise returns a [result]
    carrying the exception class. *)

From Stdlib Require Import ZArith List String Ascii Bool Lia.
From Stdlib Require Import DecimalString DecimalZ.
Import ListNotations.

Local Open Scope string_scope.
Local Open Scope Z_scope.

(** ** The Python built-ins the module relies on *)

Module Py.

Inductive exn : Set := ValueError | TypeError | IndexError.

Inductive result (A : Type) : Type :=
| Ok (a : A)
| Raise (e : exn).

Arguments Ok {A} a.
Arguments Raise {A} e.

Definition bind {A B : Type} (c : result A) (k : A -> result B) : result B :=
  match c with
  | Ok a => k a
  | Raise e => Raise e
  end.

(** Character classes of [str.isdigit], [str.isalpha] and of the blanks
    that [int()] strips, on ASCII. *)

Definition code (c : ascii) : N := N_of_ascii c.

Definition isdigit (c : ascii) : bool :=
  ((48 <=? code c) && (code c <=? 57))%N.

Definition isalpha (c : ascii) : bool :=
  (((65 <=? code c) && (code c <=? 90)) || ((97 <=? code c) && (code c <=? 122)))%N.

Definition isspace (c : ascii) : bool :=
  (((9 <=? code c) && (code c <=? 13)) || (code c =? 32))%N.

(** [itertools.dropwhile], [itertools.takewhile] and slicing [s[n:]]. *)

Fixpoint dropwhile (p : ascii -> bool) (s : string) : string :=
  match s with
  | EmptyString => EmptyString
  | String c r => if p c then dropwhile p r else s
  end.

Fixpoint takewhile (p : ascii -> bool) (s : string) : string :=
  match s with
  | EmptyString => EmptyString
  | String c r => if p c then String c (takewhile p r) else EmptyString
  end.

Fixpoint slice_from (n : nat) (s : string) : string :=
  match n, s with
  | O, _ => s
  | S _, EmptyString => EmptyString
  | S k, String _ r => slice_from k r
  end.

Definition is_empty (s : string) : bool :=
  match s with
  | EmptyString => true
  | String _ _ => false
  end.

Fixpoint rstrip (s : string) : string :=
  match s with
  | EmptyString => EmptyString
  | String c r =>
      let r' := rstrip r in
      if isspace c && is_empty r' then EmptyString else String c r'
  end.

Definition strip (s : string) : string := rstrip (dropwhile isspace s).

(** [str.split('.')]: never returns an empty list. *)

Fixpoint split_dot (s : string) : list string :=
  match s with
  | EmptyString => [EmptyString]
  | String c r =>
      if Ascii.eqb c "." then EmptyString :: split_dot r
      else match split_dot r with
           | h :: t => String c h :: t
           | [] => [String c EmptyString]
           end
  end.

(** [int(text)] in base ten: blanks around the literal are dropped, one sign
    is allowed, and the digits may be grouped by single underscores.  [None]
    stands for [ValueError]. *)

Fixpoint int_body (after_digit : bool) (s : string) : option Decimal.uint :=
  match s with
  | EmptyString => if after_digit then Some Decimal.Nil else None
  | String c r =>
      if isdigit c then uint_of_char c (int_body true r)
      else if Ascii.eqb c "_" then
             (if after_digit then int_body false r else None)
      else None
  end.

Definition int_literal (s : string) : option Z :=
  match s with
  | String c r =>
      if Ascii.eqb c "-" then option_map (fun d => - Z.of_uint d) (int_body false r)
      else if Ascii.eqb c "+" then option_map Z.of_uint (int_body false r)
      else option_map Z.of_uint (int_body false s)
  | EmptyString => None
  end.

Definition int_of_text (s : string) : option Z := int_literal (strip s).

(** [str(n)] for an integer. *)

Definition str_of_int (n : Z) : string := NilZero.string_of_int (Z.to_int n).

End Py.

Export Py.

Notation "x <- c ;; k" := (bind c (fun x => k))
  (at level 61, c at next level, right associativity).
Notation "' pat <- c ;; k" := (bind c (fun x => match x with pat => k end))
  (at level 61, pat pattern, c at next level, right associativity).

(** ** Values and the version record *)

(** The plain values that occur in the module: [None], integers and text. *)

Inductive value : Type :=
| VNone
| VInt (n : Z)
| VStr (s : string).

Definition of_int (o : option Z) : value :=
  match o with Some n => VInt n | None => VNone end.

Definition of_str (o : option string) : value :=
  match o with Some s => VStr s | None => VNone end.

(** [int(x)], [str(x)], [x[0]] and [x[n:]]. *)

Definition int (x : value) : result Z :=
  match x with
  | VInt n => Ok n
  | VStr s => match int_of_text s with
              | Some n => Ok n
              | None => Raise ValueError
              end
  | VNone => Raise TypeError
  end.

Definition str (x : value) : string :=
  match x with
  | VNone => "None"
  | VInt n => str_of_int n
  | VStr s => s
  end.

Definition first_char (x : value) : result string :=
  match x with
  | VStr (String c _) => Ok (String c EmptyString)
  | VStr EmptyString => Raise IndexError
  | _ => Raise TypeError
  end.

Definition tail_from (n : nat) (x : value) : result string :=
  match x with
  | VStr s => Ok (slice_from n s)
  | _ => Raise TypeError
  end.

Definition chars (x : value) : result string :=
  match x with
  | VStr s => Ok s
  | _ => Raise TypeError
  end.

Definition item {A : Type} (l : list A) (i : nat) : result A :=
  match nth_error l i with
  | Some a => Ok a
  | None => Raise IndexError
  end.

(** Truth value of an attribute in a condition: [None], [0] and the empty
    text are false. *)

Definition truthy_int (o : option Z) : bool :=
  match o with
  | Some n => negb (n =? 0)
  | None => false
  end.

Definition truthy_str (o : option string) : bool :=
  match o with
  | Some s => negb (is_empty s)
  | None => false
  end.

Definition is_none {A : Type} (o : option A) : bool :=
  match o with
  | Some _ => false
  | None => true
  end.

(** [==] and [<] on attributes that may be [None]; ordering [None] raises. *)

Definition opt_eqb {A : Type} (eqb : A -> A -> bool) (x y : option A) : bool :=
  match x, y with
  | Some a, Some b => eqb a b
  | None, None => true
  | _, _ => false
  end.

Definition opt_ltb {A : Type} (ltb : A -> A -> bool) (x y : option A) : result bool :=
  match x, y with
  | Some a, Some b => Ok (ltb a b)
  | _, _ => Raise TypeError
  end.

(** [_is_int]: does [int()] accept the argument? *)

Definition _is_int (x : value) : result bool :=
  match int x with
  | Ok _ => Ok true
  | Raise ValueError => Ok false
  | Raise e => Raise e
  end.

(** The instance dictionary of a [SemanticVersion]. *)

Record SemanticVersion : Type := Build_version {
  _major : Z;
  _minor : Z;
  _patch : Z;
  _prerelease_type : option string;
  _prerelease : option Z;
  _dev_count : option Z;
  _githash : option string
}.

(** What a version can be compared with. *)

Inductive operand : Type :=
| Version (v : SemanticVersion)
| Other (x : value).

(** ** Construction *)

Definition __init__ (major minor patch : Z) (prerelease_type : option string)
    (prerelease : option Z) (dev_count : option Z) (githash : option string)
  : result SemanticVersion :=
  let prerelease' :=
    if truthy_str prerelease_type && negb (truthy_int prerelease)
    then Some 0 else prerelease in
  if negb (is_none prerelease_type) && negb (is_none dev_count)
  then Raise ValueError
  else Ok (Build_version major minor patch prerelease_type prerelease'
             dev_count githash).

(** ** Comparison *)

(** [self.__dict__ == other.__dict__]: the attributes are compared one by one. *)

Definition dict_eqb (a b : SemanticVersion) : bool :=
  (_major a =? _major b) && (_minor a =? _minor b) && (_patch a =? _patch b)
  && opt_eqb String.eqb (_prerelease_type a) (_prerelease_type b)
  && opt_eqb Z.eqb (_prerelease a) (_prerelease b)
  && opt_eqb Z.eqb (_dev_count a) (_dev_count b)
  && opt_eqb String.eqb (_githash a) (_githash b).

Definition __eq__ (self : SemanticVersion) (other : operand) : result bool :=
  match other with
  | Other _ => Ok false
  | Version o => Ok (dict_eqb self o)
  end.

(** Tuple ordering: the first unequal position decides. *)

Definition triple_ltb (a b : Z * Z * Z) : bool :=
  let '(a1, a2, a3) := a in
  let '(b1, b2, b3) := b in
  if negb (a1 =? b1) then a1 <? b1
  else if negb (a2 =? b2) then a2 <? b2
  else a3 <? b3.

Definition pre_tuple_lt (a b : option string * option Z) : result bool :=
  let '(a1, a2) := a in
  let '(b1, b2) := b in
  if negb (opt_eqb String.eqb a1 b1) then opt_ltb String.ltb a1 b1
  else if negb (opt_eqb Z.eqb a2 b2) then opt_ltb Z.ltb a2 b2
  else Ok false.

Definition __lt__ (self : SemanticVersion) (other : operand) : result bool :=
  match other with
  | Other _ => Raise TypeError
  | Version o =>
      let this_tuple := (_major self, _minor self, _patch self) in
      let other_tuple := (_major o, _minor o, _patch o) in
      if triple_ltb this_tuple other_tuple then Ok true
      else if triple_ltb other_tuple this_tuple then Ok false
      else if truthy_str (_prerelease_type self) then
        if truthy_str (_prerelease_type o) then
          pre_tuple_lt (_prerelease_type self, _prerelease self)
                       (_prerelease_type o, _prerelease o)
        else if truthy_int (_dev_count o) then Raise TypeError
        else Ok true
      else if truthy_int (_dev_count self) then
        if truthy_int (_dev_count o) then
          lt <- opt_ltb Z.ltb (_dev_count self) (_dev_count o) ;;
          if (lt : bool) then Ok true
          else
            gt <- opt_ltb Z.ltb (_dev_count o) (_dev_count self) ;;
            if (gt : bool) then Ok false
            else if opt_eqb String.eqb (_githash self) (_githash o) then Ok false
            else Raise TypeError
        else if truthy_str (_prerelease_type o) then Raise TypeError
        else Ok true
      else Ok false
  end.

Definition __le__ (self : SemanticVersion) (other : operand) : result bool :=
  eq <- __eq__ self other ;;
  if (eq : bool) then Ok true else __lt__ self other.

Definition __ge__ (self : SemanticVersion) (other : operand) : result bool :=
  lt <- __lt__ self other ;; Ok (negb lt).

Definition __gt__ (self : SemanticVersion) (other : operand) : result bool :=
  le <- __le__ self other ;; Ok (negb le).

Definition __ne__ (self : SemanticVersion) (other : operand) : result bool :=
  eq <- __eq__ self other ;; Ok (negb eq).

(** ** Parsing *)

(** The local helper [_parse_type] of [from_pip_string]. *)

Definition _parse_type (segment : value) : result (string * Z) :=
  segment <- chars segment ;;
  let segment := dropwhile isdigit segment in
  let prerelease_type := takewhile isalpha segment in
  let prerelease := slice_from (String.length prerelease_type) segment in
  n <- int (VStr prerelease) ;;
  Ok (prerelease_type, n).

(** [remainder and int(remainder[0])] under [try ... except ValueError]. *)

Definition starts_with_int (remainder : list value) : result bool :=
  match remainder with
  | [] => Ok false
  | r0 :: _ =>
      match int r0 with
      | Ok n => Ok (negb (n =? 0))
      | Raise ValueError => Ok false
      | Raise e => Raise e
      end
  end.

(** [remainder[0][0] == '0' or remainder[0][0] in ('a', 'b', 'rc')] *)

Definition prerelease_marker (c : string) : bool :=
  String.eqb c "0" || existsb (String.eqb c) ["a"; "b"; "rc"].

(** The part of [from_pip_string] that reads the components after the
    patch level: the qualifiers and the hash. *)

Definition parse_remainder (remainder : list value)
  : result (option string * option Z * option Z * option string) :=
  remainder_starts_with_int <- starts_with_int remainder ;;
  '(prerelease_type, prerelease, dev_count, remainder) <-
    (if (remainder_starts_with_int : bool)
     then
       r0 <- item remainder 0 ;;
       n <- int r0 ;;
       Ok (None, None, Some n, remainder)
     else
       '(prerelease_type, prerelease, remainder) <-
         match remainder with
         | r0 :: rest =>
             c <- first_char r0 ;;
             if prerelease_marker c
             then
               '(t, n) <- _parse_type r0 ;;
               Ok (Some t, Some n, rest)
             else Ok (None, None, remainder)
         | [] => Ok (None, None, remainder)
         end ;;
       dev_count <-
         match remainder with
         | r0 :: _ =>
             digits <- tail_from 3 r0 ;;
             n <- int (VStr digits) ;;
             Ok (Some n)
         | [] => Ok None
         end ;;
       Ok (prerelease_type, prerelease, dev_count, remainder)) ;;
  githash <-
    (if (1 <? List.length remainder)%nat
     then r1 <- item remainder 1 ;; h <- tail_from 1 r1 ;; Ok (Some h)
     else Ok None) ;;
  Ok (prerelease_type, prerelease, dev_count, githash).

Definition from_pip_string (version_string : string) : result SemanticVersion :=
  let components := map VStr (split_dot version_string) in
  let components :=
    if (List.length components <? 3)%nat
    then (components ++ repeat (VInt 0) (3 - List.length components))%list
    else components in
  c0 <- item components 0 ;;
  major <- int c0 ;;
  c1 <- item components 1 ;;
  minor <- int c1 ;;
  c2 <- item components 2 ;;
  c2_is_int <- _is_int c2 ;;
  '(patch, components) <-
    (if (c2_is_int : bool)
     then p <- int c2 ;; Ok (p, components)
     else Ok (0, (firstn 2 components ++ VInt 0 :: skipn 2 components)%list)) ;;
  '(prerelease_type, prerelease, dev_count, githash) <-
    parse_remainder (skipn 3 components) ;;
  __init__ major minor patch prerelease_type prerelease dev_count githash.

(** ** Arithmetic *)

Definition decrement (self : SemanticVersion) : result SemanticVersion :=
  let '(new_major, new_minor, new_patch) :=
    if negb (_patch self =? 0)
    then (_major self, _minor self, _patch self - 1)
    else if negb (_minor self =? 0)
         then (_major self, _minor self - 1, 9999)
         else if negb (_major self =? 0)
              then (_major self - 1, 9999, 9999)
              else (0, 9999, 9999) in
  __init__ new_major new_minor new_patch None None None None.

Definition to_dev (self : SemanticVersion) (dev_count : option Z)
    (githash : option string) : result SemanticVersion :=
  __init__ (_major self) (_minor self) (_patch self) None None dev_count githash.

Definition to_release (self : SemanticVersion) : result SemanticVersion :=
  __init__ (_major self) (_minor self) (_patch self) None None None None.

(** ** Rendering *)

Definition brief_string (self : SemanticVersion) : string :=
  str (VInt (_major self)) ++ "." ++ str (VInt (_minor self)) ++ "."
  ++ str (VInt (_patch self)).

(** ["".join(str(s) for s in segments)] *)

Definition join (segments : list value) : string :=
  fold_right (fun s acc => str s ++ acc) "" segments.

Definition _long_version (self : SemanticVersion) (pre_separator : option string)
    (hash_separator : string) (rc_marker : string) : result string :=
  '(segments, pre_separator) <-
    (if (truthy_str (_prerelease_type self) || truthy_int (_dev_count self))
        && is_none pre_separator
     then
       d <- decrement self ;;
       Ok ([VStr (brief_string d)], Some ".")
     else Ok ([VStr (brief_string self)], pre_separator)) ;;
  let segments :=
    if truthy_str (_prerelease_type self)
    then (segments ++
          [VStr (str (of_str pre_separator) ++ rc_marker
                 ++ str (of_str (_prerelease_type self))
                 ++ str (of_int (_prerelease self)))])%list
    else segments in
  let segments :=
    if truthy_int (_dev_count self)
    then
      let segments :=
        (segments ++ [of_str pre_separator; VStr "dev"; of_int (_dev_count self)])%list in
      if truthy_str (_githash self)
      then (segments ++ [VStr hash_separator; of_str (_githash self)])%list
      else segments
    else segments in
  Ok (join segments).

Definition release_string (self : SemanticVersion) : result string :=
  _long_version self (Some ".") ".g" "0".

Definition debian_string (self : SemanticVersion) : result string :=
  _long_version self (Some "~") "+g" "".

Definition rpm_string (self : SemanticVersion) : result string :=
  _long_version self None "+g" "".

(** ** Vocabulary of the properties *)

(** Character predicates over a whole text. *)

Fixpoint all_chars (p : ascii -> bool) (s : string) : bool :=
  match s with
  | EmptyString => true
  | String c r => p c && all_chars p r
  end.

Definition is_dot (c : ascii) : bool := Ascii.eqb c ".".

Definition no_dot (s : string) : bool := all_chars (fun c => negb (is_dot c)) s.

Definition has_alpha (s : string) : bool := negb (all_chars (fun c => negb (isalpha c)) s).

(** The records that [__init__] can return: never a prerelease type together
    with a dev count, and a serial whenever the prerelease type is true. *)

Definition constructed (v : SemanticVersion) : bool :=
  negb (negb (is_none (_prerelease_type v)) && negb (is_none (_dev_count v)))
  && (if truthy_str (_prerelease_type v) then negb (is_none (_prerelease v)) else true).

(** The three kinds of version, by the tests the methods make. *)

Definition is_prerelease (v : SemanticVersion) : bool := truthy_str (_prerelease_type v).

Definition is_dev (v : SemanticVersion) : bool := truthy_int (_dev_count v).

Definition is_final (v : SemanticVersion) : bool := negb (is_prerelease v) && negb (is_dev v).

Definition same_triple (a b : SemanticVersion) : Prop :=
  _major a = _major b /\ _minor a = _minor b /\ _patch a = _patch b.

(** The specification's prerelease types and their codes in the source:
    a (alpha), b (beta), rc (release candidate). *)

Inductive prerelease_kind : Set := alpha | beta | candidate.

Definition kind_code (k : prerelease_kind) : string :=
  match k with
  | alpha => "a"
  | beta => "b"
  | candidate => "rc"
  end.

Definition kind_rank (k : prerelease_kind) : Z :=
  match k with
  | alpha => 0
  | beta => 1
  | candidate => 2
  end.

(** The specification's order on prereleases: (type, serial) compared
    lexicographically with alpha < beta < candidate. *)

Definition spec_prerelease_ltb (a b : prerelease_kind * Z) : bool :=
  (kind_rank (fst a) <? kind_rank (fst b))
  || ((kind_rank (fst a) =? kind_rank (fst b)) && (snd a <? snd b)).

(** The specification's decrement of a triple: patch-1 when patch > 0, else
    patch 9999 and borrow from minor, then from major, which floors at 0. *)

Definition spec_decrement (major minor patch : Z) : Z * Z * Z :=
  if 0 <? patch then (major, minor, patch - 1)
  else if 0 <? minor then (major, minor - 1, 9999)
  else if 0 <? major then (major - 1, 9999, 9999)
  else (0, 9999, 9999).

(** The qualifier segments of the rpm rendering as the specification words
    them: "." type serial for a prerelease, ".dev" count for a dev build,
    followed by "+g" hash when a hash is present. *)

Definition spec_rpm_qualifier (v : SemanticVersion) : string :=
  (match _prerelease_type v, _prerelease v with
   | Some t, Some n => if is_empty t then "" else "." ++ t ++ str_of_int n
   | _, _ => ""
   end)
  ++ (match _dev_count v with
      | Some n =>
          if n =? 0 then ""
          else ".dev" ++ str_of_int n
               ++ (match _githash v with
                   | Some h => if is_empty h then "" else "+g" ++ h
                   | None => ""
                   end)
      | None => ""
      end).

(** A version whose canonical rendering shows every attribute it carries, so
    that nothing is lost or blurred: the prerelease type is a non-empty run of
    letters and the serial comes only with it; the dev count is non-zero; the
    hash comes only with a dev count, is non-empty and has no dot. *)

Definition unambiguous (v : SemanticVersion) : bool :=
  (match _prerelease_type v with
   | Some t => negb (is_empty t) && all_chars isalpha t
   | None => is_none (_prerelease v)
   end)
  && (match _dev_count v with
      | Some n =>
          negb (n =? 0)
          && (match _githash v with
              | Some h => negb (is_empty h) && no_dot h
              | None => true
              end)
      | None => is_none (_githash v)
      end).

(** The attributes of a version that its canonical rendering shows: the
    others are replaced by [None]. *)

Definition shown (v : SemanticVersion) : SemanticVersion :=
  Build_version (_major v) (_minor v) (_patch v)
    (if truthy_str (_prerelease_type v) then _prerelease_type v else None)
    (if truthy_str (_prerelease_type v) then _prerelease v else None)
    (if truthy_int (_dev_count v) then _dev_count v else None)
    (if truthy_int (_dev_count v) && truthy_str (_githash v)
     then _githash v else None).

(** ** The remaining methods of SemanticVersion *)

(** [x + 1] on an attribute: adding to [None] raises TypeError. *)

Definition plus_one (o : option Z) : result Z :=
  match o with
  | Some n => Ok (n + 1)
  | None => Raise TypeError
  end.

Definition increment (self : SemanticVersion) (minor major : bool)
  : result SemanticVersion :=
  '(new_prerelease_type, new_prerelease, new_patch) <-
    (if truthy_str (_prerelease_type self)
     then
       n <- plus_one (_prerelease self) ;;
       Ok (_prerelease_type self, Some n, _patch self)
     else Ok (None, None, _patch self + 1)) ;;
  let '(new_minor, new_patch, new_prerelease_type, new_prerelease) :=
    if minor
    then (_minor self + 1, 0, None, None)
    else (_minor self, new_patch, new_prerelease_type, new_prerelease) in
  let '(new_major, new_minor, new_patch, new_prerelease_type, new_prerelease) :=
    if major
    then (_major self + 1, 0, 0, None, None)
    else (_major self, new_minor, new_patch, new_prerelease_type, new_prerelease) in
  __init__ new_major new_minor new_patch new_prerelease_type new_prerelease
    None None.

(** [version_tuple]: the only exception it can raise is the KeyError of
    [type_map[self._prerelease_type]]. *)

Inductive keyed (A : Type) : Type :=
| Found (a : A)
| KeyError (key : string).

Arguments Found {A} a.
Arguments KeyError {A} key.

Definition type_map : list (string * string) :=
  [("a", "alpha"); ("b", "beta"); ("rc", "candidate")].

Fixpoint getitem (map : list (string * string)) (key : string) : keyed string :=
  match map with
  | [] => KeyError key
  | (k, x) :: rest => if String.eqb k key then Found x else getitem rest key
  end.

Definition version_tuple (self : SemanticVersion) : keyed (list value) :=
  let segments := [VInt (_major self); VInt (_minor self); VInt (_patch self)] in
  if truthy_str (_prerelease_type self)
  then
    match getitem type_map (str (of_str (_prerelease_type self))) with
    | Found stage => Found (segments ++ [VStr stage; of_int (_prerelease self)])%list
    | KeyError k => KeyError k
    end
  else if truthy_int (_dev_count self)
  then Found (segments
              ++ [VStr "dev"; of_int (option_map (fun n => n - 1) (_dev_count self))])%list
  else Found (segments ++ [VStr "final"; VInt 0])%list.

(** Python's [<] on tuples of plain values: the first position where the
    two differ decides, and a proper prefix is smaller.  Values of different
    types are unequal and cannot be ordered. *)

Definition value_eqb (x y : value) : bool :=
  match x, y with
  | VNone, VNone => true
  | VInt m, VInt n => m =? n
  | VStr s, VStr t => String.eqb s t
  | _, _ => false
  end.

Definition value_lt (x y : value) : result bool :=
  match x, y with
  | VInt m, VInt n => Ok (m <? n)
  | VStr s, VStr t => Ok (String.ltb s t)
  | _, _ => Raise TypeError
  end.

Fixpoint tuple_lt (a b : list value) : result bool :=
  match a, b with
  | [], [] => Ok false
  | [], _ :: _ => Ok true
  | _ :: _, [] => Ok false
  | x :: a', y :: b' => if value_eqb x y then tuple_lt a' b' else value_lt x y
  end.

(** ** VersionInfo *)

(** What the class asks of its surroundings: the version that pkg_resources
    records for a package, and the setup-time version of pbr.packaging. *)

Inductive provided : Type :=
| Installed (version : string)
| DistributionNotFound
| Failed (e : exn).

Record surroundings : Type := Build_surroundings {
  provider_version : string -> provided;
  get_version : string -> result string
}.

Module VersionInfo.

Record t : Type := Build {
  package : string;
  version : option string;
  _cached_version : option string;
  _semantic : option SemanticVersion
}.

Definition __init__ (package : string) : t := Build package None None None.

Definition _get_version_from_pkg_resources (env : surroundings) (self : t)
  : result SemanticVersion :=
  result_string <-
    match provider_version env (package self) with
    | Installed s => Ok s
    | DistributionNotFound => get_version env (package self)
    | Failed e => Raise e
    end ;;
  from_pip_string result_string.

(** The methods below may fill the caches: they return the instance as it
    is after the call. *)

Definition semantic_version (env : surroundings) (self : t)
  : result (SemanticVersion * t) :=
  match _semantic self with
  | None =>
      v <- _get_version_from_pkg_resources env self ;;
      Ok (v, Build (package self) (version self) (_cached_version self) (Some v))
  | Some v => Ok (v, self)
  end.

Definition release_string (env : surroundings) (self : t) : result (string * t) :=
  '(v, self) <- semantic_version env self ;;
  s <- release_string v ;;
  Ok (s, self).

Definition version_string (env : surroundings) (self : t) : result (string * t) :=
  '(v, self) <- semantic_version env self ;;
  Ok (brief_string v, self).

Definition cached_version_string (env : surroundings) (self : t) (prefix : string)
  : result (string * t) :=
  if negb (truthy_str (_cached_version self))
  then
    '(s, self) <- version_string env self ;;
    let cached := prefix ++ s in
    Ok (cached,
        Build (package self) (version self) (Some cached) (_semantic self))
  else Ok (str (of_str (_cached_version self)), self).

End VersionInfo.

(** ** More vocabulary *)

(** The order of two triples, as a proposition. *)

Definition triple_before (a b : SemanticVersion) : Prop :=
  _major a < _major b
  \/ (_major a = _major b
      /\ (_minor a < _minor b \/ (_minor a = _minor b /\ _patch a < _patch b))).

(** The bare release of a triple. *)

Definition bare (major minor patch : Z) : SemanticVersion :=
  Build_version major minor patch None None None None.

(** When one version comes before another, read off the fields: by the
    triple, and within one triple a prerelease before a later prerelease, a
    dev build before a dev build with more commits, and both before the
    final release. *)

Definition prerelease_before (a b : SemanticVersion) : Prop :=
  exists ta sa tb sb,
    _prerelease_type a = Some ta /\ _prerelease a = Some sa
    /\ _prerelease_type b = Some tb /\ _prerelease b = Some sb
    /\ (String.ltb ta tb = true \/ (ta = tb /\ sa < sb)).

Definition dev_before (a b : SemanticVersion) : Prop :=
  exists na nb, _dev_count a = Some na /\ _dev_count b = Some nb /\ na < nb.

Definition precedes (a b : SemanticVersion) : Prop :=
  triple_before a b
  \/ (same_triple a b
      /\ ((is_prerelease a = true /\ is_prerelease b = true /\ prerelease_before a b)
          \/ (is_prerelease a || is_dev a = true /\ is_final b = true)
          \/ (is_dev a = true /\ is_dev b = true /\ dev_before a b))).

(** The stage names that [type_map] gives to the prerelease types. *)

Definition kind_name (k : prerelease_kind) : string :=
  match k with
  | alpha => "alpha"
  | beta => "beta"
  | candidate => "candidate"
  end.

(** The characters on which the character classes above are those of
    Python: the ASCII ones. *)

Definition is_ascii (c : ascii) : bool := (code c <? 128)%N.

(** ** Structural equality *)

Lemma opt_eqb_Z_eq (x y : option Z) : opt_eqb Z.eqb x y = true <-> x = y.
Proof.
  destruct x as [a|], y as [b|]; simpl; split; intro H;
    try discriminate; try reflexivity.
  - apply Z.eqb_eq in H. now subst.
  - injection H as ->. apply Z.eqb_refl.
Qed.

Lemma opt_eqb_string_eq (x y : option string) :
  opt_eqb String.eqb x y = true <-> x = y.
Proof.
  destruct x as [a|], y as [b|]; simpl; split; intro H;
    try discriminate; try reflexivity.
  - apply String.eqb_eq in H. now subst.
  - injection H as ->. apply String.eqb_refl.
Qed.

Lemma dict_eqb_eq (a b : SemanticVersion) : dict_eqb a b = true <-> a = b.
Proof.
  unfold dict_eqb. split.
  - intro H. repeat (apply andb_prop in H; destruct H as [H ?]).
    destruct a, b; simpl in *.
    repeat match goal with
           | E : (_ =? _) = true |- _ => apply Z.eqb_eq in E
           | E : opt_eqb Z.eqb _ _ = true |- _ => apply opt_eqb_Z_eq in E
           | E : opt_eqb String.eqb _ _ = true |- _ => apply opt_eqb_string_eq in E
           end.
    congruence.
  - intros <-. rewrite !Z.eqb_refl. simpl.
    rewrite (proj2 (opt_eqb_string_eq _ _) eq_refl).
    rewrite !(proj2 (opt_eqb_Z_eq _ _) eq_refl).
    rewrite (proj2 (opt_eqb_string_eq _ _) eq_refl).
    reflexivity.
Qed.

Lemma dict_eqb_neq (a b : SemanticVersion) : a <> b -> dict_eqb a b = false.
Proof.
  intro H. destruct (dict_eqb a b) eqn:E; [|reflexivity].
  apply dict_eqb_eq in E. contradiction.
Qed.

(** ** The constructor *)

Lemma init_fields major minor patch t s d h v :
  __init__ major minor patch t s d h = Ok v ->
  _major v = major /\ _minor v = minor /\ _patch v = patch
  /\ _prerelease_type v = t /\ _dev_count v = d /\ _githash v = h
  /\ _prerelease v = (if truthy_str t && negb (truthy_int s) then Some 0 else s).
Proof.
  unfold __init__.
  destruct (negb (is_none t) && negb (is_none d)); [discriminate|].
  intros [= <-]. simpl. repeat split; reflexivity.
Qed.

Lemma init_constructed major minor patch t s d h v :
  __init__ major minor patch t s d h = Ok v -> constructed v = true.
Proof.
  unfold __init__, constructed.
  destruct (negb (is_none t) && negb (is_none d)) eqn:E; [discriminate|].
  intros [= <-]. simpl. rewrite E. simpl.
  destruct (truthy_str t); [|reflexivity].
  simpl. destruct s as [n|]; simpl; [|reflexivity].
  destruct (negb (n =? 0)); reflexivity.
Qed.

Lemma constructed_init (v : SemanticVersion) :
  constructed v = true ->
  __init__ (_major v) (_minor v) (_patch v) (_prerelease_type v)
    (_prerelease v) (_dev_count v) (_githash v) = Ok v.
Proof.
  unfold constructed, __init__. destruct v as [M m p t s d h]. simpl.
  intro H. apply andb_prop in H. destruct H as [H1 H2].
  apply negb_true_iff in H1. rewrite H1.
  destruct (truthy_str t); simpl; [|reflexivity].
  destruct s as [n|]; [|discriminate]. simpl.
  destruct (n =? 0) eqn:E; simpl; [|reflexivity].
  apply Z.eqb_eq in E. now subst.
Qed.

(** C2.  Construction raises ValueError (the specification's
    InvalidVersionSpec) exactly when both a prerelease type and a dev count
    are given, whatever the other arguments are.  Every other combination,
    a prerelease type with a hash and no dev count among them, returns a
    version carrying the arguments, and a prerelease type that is given
    (one of the type codes, or any non-empty text) without a serial gets
    the serial 0. *)
Theorem init_raises_iff_prerelease_and_dev
    (major minor patch : Z) (t : option string) (s d : option Z)
    (h : option string) :
  (__init__ major minor patch t s d h = Raise ValueError
   <-> (t <> None /\ d <> None))
  /\ ((t = None \/ d = None) ->
      exists v, __init__ major minor patch t s d h = Ok v
                /\ _major v = major /\ _minor v = minor /\ _patch v = patch
                /\ _prerelease_type v = t /\ _dev_count v = d /\ _githash v = h)
  /\ (truthy_str t = true -> s = None -> d = None ->
      __init__ major minor patch t s d h
      = Ok (Build_version major minor patch t (Some 0) None h)).
Proof.
  split; [|split].
  - unfold __init__. destruct t as [ty|], d as [n|]; simpl.
    + split; [intros _; split; discriminate | reflexivity].
    + split; [discriminate | intros [_ Hd]; now elim Hd].
    + split; [discriminate | intros [Ht _]; now elim Ht].
    + split; [discriminate | intros [Ht _]; now elim Ht].
  - intros Hnone. unfold __init__.
    assert (E : negb (is_none t) && negb (is_none d) = false)
      by (destruct Hnone; subst; simpl; [reflexivity | apply andb_false_r]).
    rewrite E. eexists. split; [reflexivity|]. simpl. repeat split; reflexivity.
  - intros Ht -> ->. unfold __init__. rewrite Ht. simpl.
    rewrite andb_false_r. reflexivity.
Qed.

Lemma init_raises_iff_prerelease_and_dev_witness :
  __init__ 1 2 3 (Some "rc") None None (Some "83bef74")
  = Ok (Build_version 1 2 3 (Some "rc") (Some 0) None (Some "83bef74"))
  /\ __init__ 1 2 3 (Some "rc") (Some 1) (Some 4) None = Raise ValueError.
Proof.
  split.
  - apply (proj2 (proj2 (init_raises_iff_prerelease_and_dev 1 2 3 (Some "rc")
                           None None (Some "83bef74")))); reflexivity.
  - apply (proj1 (init_raises_iff_prerelease_and_dev 1 2 3 (Some "rc")
                    (Some 1) (Some 4) None)).
    split; discriminate.
Defined.

(** ** Decrement *)

Lemma init_plain major minor patch :
  __init__ major minor patch None None None None
  = Ok (Build_version major minor patch None None None None).
Proof. reflexivity. Qed.

(** C8.  For a version whose major, minor and patch are non-negative, as the
    data model requires, [decrement] returns a new version without any
    qualifier whose triple is patch-1 when patch > 0, otherwise patch 9999
    with a borrow from minor (minor-1 when minor > 0), otherwise minor 9999
    with a borrow from major, which stays 0 when it is 0.  In particular
    (1,2,0) gives (1,1,9999) and (1,0,0) gives (0,9999,9999), whatever the
    qualifiers were. *)
Theorem decrement_borrows
    (v : SemanticVersion)
    (Hmajor : 0 <= _major v) (Hminor : 0 <= _minor v) (Hpatch : 0 <= _patch v) :
  (let '(major', minor', patch') :=
     spec_decrement (_major v) (_minor v) (_patch v) in
   decrement v = Ok (Build_version major' minor' patch' None None None None))
  /\ (_major v = 1 -> _minor v = 2 -> _patch v = 0 ->
      decrement v = Ok (Build_version 1 1 9999 None None None None))
  /\ (_major v = 1 -> _minor v = 0 -> _patch v = 0 ->
      decrement v = Ok (Build_version 0 9999 9999 None None None None)).
Proof.
  split; [|split].
  - unfold spec_decrement, decrement.
    destruct (Z.ltb_spec 0 (_patch v)) as [Hp|Hp].
    + replace (_patch v =? 0) with false by (symmetry; apply Z.eqb_neq; lia).
      reflexivity.
    + replace (_patch v =? 0) with true by (symmetry; apply Z.eqb_eq; lia).
      simpl negb. cbv iota.
      destruct (Z.ltb_spec 0 (_minor v)) as [Hm|Hm].
      * replace (_minor v =? 0) with false by (symmetry; apply Z.eqb_neq; lia).
        reflexivity.
      * replace (_minor v =? 0) with true by (symmetry; apply Z.eqb_eq; lia).
        simpl negb. cbv iota.
        destruct (Z.ltb_spec 0 (_major v)) as [HM|HM].
        -- replace (_major v =? 0) with false by (symmetry; apply Z.eqb_neq; lia).
           reflexivity.
        -- replace (_major v =? 0) with true by (symmetry; apply Z.eqb_eq; lia).
           reflexivity.
  - intros E1 E2 E3. unfold decrement. rewrite E1, E2, E3. reflexivity.
  - intros E1 E2 E3. unfold decrement. rewrite E1, E2, E3. reflexivity.
Qed.

Lemma decrement_borrows_witness :
  decrement (Build_version 1 0 0 (Some "b") (Some 2) None None)
  = Ok (Build_version 0 9999 9999 None None None None).
Proof.
  apply (proj2 (proj2 (decrement_borrows
                         (Build_version 1 0 0 (Some "b") (Some 2) None None)
                         ltac:(simpl; lia) ltac:(simpl; lia) ltac:(simpl; lia))));
    reflexivity.
Defined.

Lemma decrement_total (v : SemanticVersion) :
  exists d, decrement v = Ok d /\ _prerelease_type d = None /\ _dev_count d = None.
Proof.
  unfold decrement.
  destruct (negb (_patch v =? 0)), (negb (_minor v =? 0)), (negb (_major v =? 0));
    eexists; (split; [reflexivity | split; reflexivity]).
Qed.

(** ** Comparison with a value that is not a version *)

(** C9, as the source has it.  Ordering a version against a value that is
    not a version raises TypeError for each of <, <=, > and >=.  Equality
    does not raise: [==] returns False and [!=] returns True.  Between two
    versions [==] holds exactly when all attributes are equal. *)
Theorem comparison_with_other_value (v : SemanticVersion) (x : value) :
  __lt__ v (Other x) = Raise TypeError
  /\ __le__ v (Other x) = Raise TypeError
  /\ __gt__ v (Other x) = Raise TypeError
  /\ __ge__ v (Other x) = Raise TypeError
  /\ __eq__ v (Other x) = Ok false
  /\ __ne__ v (Other x) = Ok true
  /\ (forall w, __eq__ v (Version w) = Ok true <-> v = w).
Proof.
  repeat split; try reflexivity.
  - intros [= H]. now apply dict_eqb_eq.
  - intros <-. simpl. f_equal. now apply dict_eqb_eq.
Qed.

Lemma comparison_with_other_value_witness :
  __eq__ (Build_version 1 0 0 None None (Some 2) (Some "a"))
         (Version (Build_version 1 0 0 None None (Some 2) (Some "a"))) = Ok true.
Proof.
  apply (proj2 (proj2 (proj2 (proj2 (proj2 (proj2
           (comparison_with_other_value
              (Build_version 1 0 0 None None (Some 2) (Some "a")) VNone))))))
           (Build_version 1 0 0 None None (Some 2) (Some "a"))).
  reflexivity.
Defined.

(** C9 as stated fails for equality: comparing the version 1.0.0 with the
    text "1.0.0" by [==] returns False instead of raising TypeError. *)
Lemma eq_with_other_value_does_not_raise :
  __eq__ (Build_version 1 0 0 None None None None) (Other (VStr "1.0.0")) = Ok false
  /\ __eq__ (Build_version 1 0 0 None None None None) (Other (VStr "1.0.0"))
     <> Raise TypeError.
Proof. split; [reflexivity | discriminate]. Qed.

(** ** Ordering versions of one triple *)

Lemma triple_ltb_irrefl (t : Z * Z * Z) : triple_ltb t t = false.
Proof.
  destruct t as [[x y] z]. unfold triple_ltb.
  rewrite !Z.eqb_refl. simpl. apply Z.ltb_irrefl.
Qed.

Lemma same_triple_sym (a b : SemanticVersion) : same_triple a b -> same_triple b a.
Proof. unfold same_triple. intuition congruence. Qed.

Lemma lt_same_triple (a b : SemanticVersion) :
  same_triple a b ->
  triple_ltb (_major a, _minor a, _patch a) (_major b, _minor b, _patch b) = false
  /\ triple_ltb (_major b, _minor b, _patch b) (_major a, _minor a, _patch a) = false.
Proof.
  intros (-> & -> & ->). split; apply triple_ltb_irrefl.
Qed.

Ltac same_triple_lt H :=
  unfold __lt__; cbv zeta;
  let E1 := fresh "E" in
  let E2 := fresh "E" in
  destruct (lt_same_triple _ _ H) as [E1 E2];
  rewrite ?E1, ?E2; clear E1 E2.

Lemma constructed_dev_no_type (v : SemanticVersion) :
  constructed v = true -> is_dev v = true -> _prerelease_type v = None.
Proof.
  unfold constructed, is_dev. destruct v as [M m p t s d h]. simpl.
  destruct t, d; simpl; try discriminate; reflexivity.
Qed.

Lemma constructed_prerelease_no_dev (v : SemanticVersion) :
  constructed v = true -> is_prerelease v = true -> _dev_count v = None.
Proof.
  unfold constructed, is_prerelease. destruct v as [M m p t s d h]. simpl.
  destruct t, d; simpl; try discriminate; reflexivity.
Qed.

Lemma prerelease_vs_dev_raises (a b : SemanticVersion) :
  constructed a = true -> constructed b = true -> same_triple a b ->
  is_prerelease a = true -> is_dev b = true ->
  __lt__ a (Version b) = Raise TypeError /\ __lt__ b (Version a) = Raise TypeError.
Proof.
  intros Ca Cb T Pa Db.
  pose proof (constructed_dev_no_type b Cb Db) as Tb.
  pose proof (constructed_prerelease_no_dev a Ca Pa) as Da.
  unfold is_prerelease in Pa. unfold is_dev in Db. split.
  - same_triple_lt T. rewrite Pa, Tb, Db. reflexivity.
  - same_triple_lt (same_triple_sym _ _ T). rewrite Tb, Db, Da, Pa. reflexivity.
Qed.

Lemma dev_vs_dev_same_count (a b : SemanticVersion) :
  constructed a = true -> constructed b = true -> same_triple a b ->
  is_dev a = true -> is_dev b = true -> _dev_count a = _dev_count b ->
  __lt__ a (Version b)
  = if opt_eqb String.eqb (_githash a) (_githash b)
    then Ok false else Raise TypeError.
Proof.
  intros Ca Cb T Da Db E.
  pose proof (constructed_dev_no_type a Ca Da) as Ta.
  unfold is_dev in Da, Db.
  same_triple_lt T. rewrite Ta, Da, Db. simpl.
  rewrite <- E. destruct (_dev_count a) as [n|]; [|discriminate].
  simpl. rewrite Z.ltb_irrefl. reflexivity.
Qed.

Lemma final_not_lt (a b : SemanticVersion) :
  same_triple a b -> is_final a = true -> __lt__ a (Version b) = Ok false.
Proof.
  intros T F. unfold is_final, is_prerelease, is_dev in F.
  apply andb_prop in F. destruct F as [F1 F2].
  apply negb_true_iff in F1, F2.
  same_triple_lt T. rewrite F1, F2. reflexivity.
Qed.

Lemma qualified_lt_final (a b : SemanticVersion) :
  same_triple a b -> is_final a = true ->
  is_prerelease b || is_dev b = true ->
  __lt__ b (Version a) = Ok true.
Proof.
  intros T F Q. unfold is_final, is_prerelease, is_dev in F, Q.
  apply andb_prop in F. destruct F as [F1 F2].
  apply negb_true_iff in F1, F2.
  same_triple_lt (same_triple_sym _ _ T). rewrite F1, F2.
  destruct (truthy_str (_prerelease_type b)); [reflexivity|].
  simpl in Q. rewrite Q. reflexivity.
Qed.

Lemma final_neq_qualified (a b : SemanticVersion) :
  is_final a = true -> is_prerelease b || is_dev b = true -> a <> b.
Proof.
  intros F Q <-. unfold is_final in F.
  destruct (is_prerelease a), (is_dev a); discriminate.
Qed.

Lemma final_gt_qualified (a b : SemanticVersion) :
  same_triple a b -> is_final a = true ->
  is_prerelease b || is_dev b = true ->
  __gt__ a (Version b) = Ok true /\ __ge__ a (Version b) = Ok true
  /\ __le__ a (Version b) = Ok false.
Proof.
  intros T F Q. unfold __gt__, __ge__, __le__.
  rewrite (final_not_lt a b T F). unfold __eq__.
  rewrite (dict_eqb_neq a b (final_neq_qualified a b F Q)).
  repeat split; reflexivity.
Qed.

Lemma kind_code_eqb (ka kb : prerelease_kind) :
  String.eqb (kind_code ka) (kind_code kb) = (kind_rank ka =? kind_rank kb).
Proof. destruct ka, kb; reflexivity. Qed.

Lemma kind_code_ltb (ka kb : prerelease_kind) :
  String.ltb (kind_code ka) (kind_code kb) = (kind_rank ka <? kind_rank kb).
Proof. destruct ka, kb; reflexivity. Qed.

Lemma kind_code_truthy (k : prerelease_kind) : truthy_str (Some (kind_code k)) = true.
Proof. destruct k; reflexivity. Qed.

Lemma prerelease_lt_by_kind (a b : SemanticVersion) (ka kb : prerelease_kind)
    (sa sb : Z) :
  same_triple a b ->
  _prerelease_type a = Some (kind_code ka) -> _prerelease a = Some sa ->
  _prerelease_type b = Some (kind_code kb) -> _prerelease b = Some sb ->
  __lt__ a (Version b) = Ok (spec_prerelease_ltb (ka, sa) (kb, sb)).
Proof.
  intros T Ta Sa Tb Sb. same_triple_lt T.
  rewrite Ta, Tb, Sa, Sb, !kind_code_truthy.
  unfold pre_tuple_lt, spec_prerelease_ltb. simpl.
  rewrite kind_code_eqb, kind_code_ltb.
  destruct (kind_rank ka =? kind_rank kb) eqn:E; simpl.
  - apply Z.eqb_eq in E. rewrite E, Z.ltb_irrefl. simpl.
    destruct (sa =? sb) eqn:E'; simpl; [|reflexivity].
    apply Z.eqb_eq in E'. subst. now rewrite Z.ltb_irrefl.
  - now rewrite orb_false_r.
Qed.

Lemma lt_raises_all (a b : SemanticVersion) (e : exn) :
  a <> b -> __lt__ a (Version b) = Raise e ->
  __le__ a (Version b) = Raise e /\ __gt__ a (Version b) = Raise e
  /\ __ge__ a (Version b) = Raise e.
Proof.
  intros N L. unfold __gt__, __ge__, __le__. rewrite L. unfold __eq__.
  rewrite (dict_eqb_neq a b N). repeat split; reflexivity.
Qed.

(** C3, as the source has it.  Take two constructed versions of one (major,
    minor, patch).  If one is a prerelease and the other a dev build whose
    dev count is not 0, [<] raises TypeError, the specification's
    UndefinedOrder, in both directions, and so do [<=], [>] and [>=].  If
    both are dev builds with the same dev count other than 0 and different
    hashes, the same happens.  If both are dev builds with the same dev
    count, 0 included, and the same hash, they are equal in the order:
    neither is [<] the other. *)
Theorem undefined_order_within_triple
    (a b : SemanticVersion)
    (Ca : constructed a = true) (Cb : constructed b = true)
    (T : same_triple a b) :
  (is_prerelease a = true -> is_dev b = true ->
   (__lt__ a (Version b) = Raise TypeError /\ __lt__ b (Version a) = Raise TypeError)
   /\ __le__ a (Version b) = Raise TypeError /\ __gt__ a (Version b) = Raise TypeError
   /\ __ge__ a (Version b) = Raise TypeError)
  /\ (is_dev a = true -> is_dev b = true ->
      _dev_count a = _dev_count b -> _githash a <> _githash b ->
      (__lt__ a (Version b) = Raise TypeError /\ __lt__ b (Version a) = Raise TypeError)
      /\ __le__ a (Version b) = Raise TypeError /\ __gt__ a (Version b) = Raise TypeError
      /\ __ge__ a (Version b) = Raise TypeError)
  /\ (forall n, _dev_count a = Some n -> _dev_count b = Some n ->
      _githash a = _githash b ->
      __lt__ a (Version b) = Ok false /\ __lt__ b (Version a) = Ok false).
Proof.
  split; [|split].
  - intros Pa Db.
    destruct (prerelease_vs_dev_raises a b Ca Cb T Pa Db) as [L1 L2].
    split; [split; assumption|].
    apply lt_raises_all; [|assumption].
    intros <-. unfold is_dev in Db.
    rewrite (constructed_prerelease_no_dev a Ca Pa) in Db. discriminate.
  - intros Da Db E N.
    assert (H : opt_eqb String.eqb (_githash a) (_githash b) = false).
    { destruct (opt_eqb String.eqb (_githash a) (_githash b)) eqn:X; [|reflexivity].
      apply opt_eqb_string_eq in X. contradiction. }
    assert (H' : opt_eqb String.eqb (_githash b) (_githash a) = false).
    { destruct (opt_eqb String.eqb (_githash b) (_githash a)) eqn:X; [|reflexivity].
      apply opt_eqb_string_eq in X. symmetry in X. contradiction. }
    assert (L1 : __lt__ a (Version b) = Raise TypeError)
      by (rewrite (dev_vs_dev_same_count a b Ca Cb T Da Db E), H; reflexivity).
    assert (L2 : __lt__ b (Version a) = Raise TypeError)
      by (rewrite (dev_vs_dev_same_count b a Cb Ca (same_triple_sym _ _ T) Db Da
                     (eq_sym E)), H'; reflexivity).
    split; [split; assumption|].
    apply lt_raises_all; [|assumption]. intros <-. now apply N.
  - intros n Na Nb H.
    assert (E : _dev_count a = _dev_count b) by now rewrite Na, Nb.
    destruct (Z.eqb_spec n 0) as [Z | NZ].
    + assert (Fa : is_final a = true).
      { unfold is_final, is_prerelease, is_dev. unfold constructed in Ca.
        rewrite Na in *. subst n. now destruct (_prerelease_type a). }
      assert (Fb : is_final b = true).
      { unfold is_final, is_prerelease, is_dev. unfold constructed in Cb.
        rewrite Nb in *. subst n. now destruct (_prerelease_type b). }
      split; apply final_not_lt; auto using same_triple_sym.
    + assert (Da : is_dev a = true)
        by (unfold is_dev; rewrite Na; now apply negb_true_iff, Z.eqb_neq).
      assert (Db : is_dev b = true)
        by (unfold is_dev; rewrite Nb; now apply negb_true_iff, Z.eqb_neq).
      rewrite (dev_vs_dev_same_count a b Ca Cb T Da Db E).
      rewrite (dev_vs_dev_same_count b a Cb Ca (same_triple_sym _ _ T) Db Da
                 (eq_sym E)).
      rewrite H, (proj2 (opt_eqb_string_eq _ _) eq_refl). split; reflexivity.
Qed.

Lemma undefined_order_within_triple_witness :
  (__lt__ (Build_version 1 0 0 None None (Some 2) (Some "a"))
          (Version (Build_version 1 0 0 None None (Some 2) (Some "b")))
   = Raise TypeError
   /\ __lt__ (Build_version 1 0 0 None None (Some 2) (Some "b"))
             (Version (Build_version 1 0 0 None None (Some 2) (Some "a")))
      = Raise TypeError)
  /\ __lt__ (Build_version 1 0 0 (Some "a") (Some 1) None None)
            (Version (Build_version 1 0 0 None None (Some 2) (Some "b")))
     = Raise TypeError.
Proof.
  split.
  - apply (proj1 (proj2 (undefined_order_within_triple
             (Build_version 1 0 0 None None (Some 2) (Some "a"))
             (Build_version 1 0 0 None None (Some 2) (Some "b"))
             eq_refl eq_refl (conj eq_refl (conj eq_refl eq_refl))))).
    + reflexivity.
    + reflexivity.
    + reflexivity.
    + simpl. discriminate.
  - apply (proj1 (undefined_order_within_triple
             (Build_version 1 0 0 (Some "a") (Some 1) None None)
             (Build_version 1 0 0 None None (Some 2) (Some "b"))
             eq_refl eq_refl (conj eq_refl (conj eq_refl eq_refl)))).
    + reflexivity.
    + reflexivity.
Defined.

(** C3 as stated fails for a dev build whose dev count is 0, which is what
    "1.2.3.dev0" parses to: the prerelease 1.2.3.0a1 is [<] it without any
    exception, and two such builds with the hashes a and b compare without
    exception too, neither being [<] the other. *)
Lemma dev_count_zero_order_is_defined :
  from_pip_string "1.2.3.dev0" = Ok (Build_version 1 2 3 None None (Some 0) None)
  /\ (__lt__ (Build_version 1 2 3 (Some "a") (Some 1) None None)
             (Version (Build_version 1 2 3 None None (Some 0) None)) = Ok true
      /\ __lt__ (Build_version 1 2 3 (Some "a") (Some 1) None None)
                (Version (Build_version 1 2 3 None None (Some 0) None))
         <> Raise TypeError)
  /\ (__lt__ (Build_version 1 2 3 None None (Some 0) (Some "a"))
             (Version (Build_version 1 2 3 None None (Some 0) (Some "b"))) = Ok false
      /\ __lt__ (Build_version 1 2 3 None None (Some 0) (Some "a"))
                (Version (Build_version 1 2 3 None None (Some 0) (Some "b")))
         <> Raise TypeError).
Proof. repeat split; try reflexivity; discriminate. Qed.

(** C6, as the source has it.  Take two versions of one (major, minor,
    patch).  A final release (no prerelease type, no dev count) is greater
    than any prerelease and than any dev build whose dev count is not 0: the
    other is [<] it, it is not [<] the other, and [>] and [>=] hold.  Two
    final releases are equal in the order: neither is [<] the other.  Two
    prereleases, of the specification's types alpha, beta and candidate
    (codes a, b, rc), compare by (type, serial) lexicographically with
    alpha < beta < candidate. *)
Theorem order_within_triple
    (a b : SemanticVersion) (T : same_triple a b) :
  (is_final a = true -> is_prerelease b || is_dev b = true ->
   __lt__ b (Version a) = Ok true /\ __lt__ a (Version b) = Ok false
   /\ __gt__ a (Version b) = Ok true /\ __ge__ a (Version b) = Ok true)
  /\ (is_final a = true -> is_final b = true ->
      __lt__ a (Version b) = Ok false /\ __lt__ b (Version a) = Ok false)
  /\ (forall (ka kb : prerelease_kind) (sa sb : Z),
      _prerelease_type a = Some (kind_code ka) -> _prerelease a = Some sa ->
      _prerelease_type b = Some (kind_code kb) -> _prerelease b = Some sb ->
      __lt__ a (Version b) = Ok (spec_prerelease_ltb (ka, sa) (kb, sb))).
Proof.
  split; [|split].
  - intros F Q. split; [now apply qualified_lt_final|].
    split; [now apply final_not_lt|].
    destruct (final_gt_qualified a b T F Q) as (G1 & G2 & _). now split.
  - intros Fa Fb. split; apply final_not_lt; auto using same_triple_sym.
  - intros ka kb sa sb. now apply prerelease_lt_by_kind.
Qed.

Lemma order_within_triple_witness :
  (__lt__ (Build_version 1 3 0 (Some "rc") (Some 1) None None)
          (Version (Build_version 1 3 0 None None None None)) = Ok true
   /\ __lt__ (Build_version 1 3 0 None None None None)
             (Version (Build_version 1 3 0 (Some "rc") (Some 1) None None)) = Ok false
   /\ __gt__ (Build_version 1 3 0 None None None None)
             (Version (Build_version 1 3 0 (Some "rc") (Some 1) None None)) = Ok true
   /\ __ge__ (Build_version 1 3 0 None None None None)
             (Version (Build_version 1 3 0 (Some "rc") (Some 1) None None)) = Ok true)
  /\ __lt__ (Build_version 1 3 0 (Some "b") (Some 7) None None)
            (Version (Build_version 1 3 0 (Some "rc") (Some 1) None None)) = Ok true.
Proof.
  split.
  - apply (proj1 (order_within_triple
             (Build_version 1 3 0 None None None None)
             (Build_version 1 3 0 (Some "rc") (Some 1) None None)
             (conj eq_refl (conj eq_refl eq_refl)))); reflexivity.
  - apply (proj2 (proj2 (order_within_triple
             (Build_version 1 3 0 (Some "b") (Some 7) None None)
             (Build_version 1 3 0 (Some "rc") (Some 1) None None)
             (conj eq_refl (conj eq_refl eq_refl)))) beta candidate 7 1);
      reflexivity.
Defined.

(** C6 as stated fails for a dev build whose dev count is 0: the final
    release 1.2.3 is not greater than it, since the dev build is not [<] the
    final release; the two are equal in the order, and [>] even holds from
    the dev build to the final release. *)
Lemma final_not_greater_than_dev_count_zero :
  (__lt__ (Build_version 1 2 3 None None (Some 0) None)
          (Version (Build_version 1 2 3 None None None None)) = Ok false
   /\ __lt__ (Build_version 1 2 3 None None (Some 0) None)
             (Version (Build_version 1 2 3 None None None None)) <> Ok true)
  /\ __lt__ (Build_version 1 2 3 None None None None)
            (Version (Build_version 1 2 3 None None (Some 0) None)) = Ok false
  /\ __gt__ (Build_version 1 2 3 None None (Some 0) None)
            (Version (Build_version 1 2 3 None None None None)) = Ok true.
Proof. repeat split; try reflexivity; discriminate. Qed.

(** ** Rendering *)

Arguments str_of_int : simpl never.
Arguments brief_string : simpl never.

Lemma append_nil_r (s : string) : s ++ "" = s.
Proof. induction s as [|c s IH]; simpl; [reflexivity | now rewrite IH]. Qed.

Lemma append_assoc (a b c : string) : (a ++ b) ++ c = a ++ b ++ c.
Proof. induction a as [|x a IH]; simpl; [reflexivity | now rewrite IH]. Qed.

Lemma long_version_unqualified (v : SemanticVersion) (sep : option string)
    (hash_sep rc : string) :
  is_prerelease v || is_dev v = false ->
  _long_version v sep hash_sep rc = Ok (brief_string v).
Proof.
  unfold is_prerelease, is_dev, _long_version. intro Q. rewrite Q.
  apply orb_false_elim in Q. destruct Q as [-> ->].
  simpl. now rewrite append_nil_r.
Qed.

Lemma brief_string_triple (a b : SemanticVersion) :
  same_triple a b -> brief_string a = brief_string b.
Proof. intros (E1 & E2 & E3). unfold brief_string. now rewrite E1, E2, E3. Qed.

(** C7, as the source has it.  For a constructed version with a prerelease
    qualifier, or with a dev qualifier whose dev count is not 0, the rpm
    rendering is the brief string of [decrement()] followed by the qualifier
    segments with "." separators and "+g" before the hash.  For a version
    without qualifier, and for one whose only qualifier is a dev count of 0,
    the rpm rendering is its brief string. *)
Theorem rpm_string_rolls_back (v : SemanticVersion) (C : constructed v = true) :
  (is_prerelease v || is_dev v = true ->
   exists d, decrement v = Ok d
             /\ rpm_string v = Ok (brief_string d ++ spec_rpm_qualifier v))
  /\ (is_prerelease v || is_dev v = false -> rpm_string v = Ok (brief_string v)).
Proof.
  split.
  - intro Q. destruct (decrement_total v) as (d & Hd & _).
    exists d. split; [exact Hd|].
    unfold rpm_string, _long_version, spec_rpm_qualifier.
    unfold is_prerelease, is_dev in Q. rewrite Q, Hd.
    unfold constructed in C. destruct v as [M m p t s dc h]. simpl in *.
    destruct t as [ty|], dc as [n|]; simpl in C; try discriminate.
    + destruct ty as [|c ty]; [discriminate|].
      destruct s as [k|]; [|discriminate]. simpl.
      now rewrite !append_nil_r.
    + simpl in Q |- *. destruct (n =? 0); [discriminate|].
      destruct h as [[|c h]|]; simpl; rewrite ?append_nil_r; reflexivity.
  - intro Q. now apply long_version_unqualified.
Qed.

Lemma rpm_string_rolls_back_witness :
  (exists d, decrement (Build_version 1 0 0 None None (Some 3) (Some "83bef74")) = Ok d
             /\ rpm_string (Build_version 1 0 0 None None (Some 3) (Some "83bef74"))
                = Ok (brief_string d
                      ++ spec_rpm_qualifier
                           (Build_version 1 0 0 None None (Some 3) (Some "83bef74"))))
  /\ rpm_string (Build_version 1 0 0 None None None None)
     = Ok (brief_string (Build_version 1 0 0 None None None None)).
Proof.
  split.
  - apply (proj1 (rpm_string_rolls_back
                    (Build_version 1 0 0 None None (Some 3) (Some "83bef74"))
                    eq_refl)).
    reflexivity.
  - apply (proj2 (rpm_string_rolls_back
                    (Build_version 1 0 0 None None None None) eq_refl)).
    reflexivity.
Defined.

(** C7 as stated fails for a version whose dev qualifier is a dev count of
    0: the rpm rendering of 1.2.3 with dev count 0 is "1.2.3", its own brief
    string, and does not start from the brief string "1.2.2" of
    [decrement()]. *)
Lemma rpm_string_dev_count_zero_is_brief :
  rpm_string (Build_version 1 2 3 None None (Some 0) None) = Ok "1.2.3"
  /\ (exists d, decrement (Build_version 1 2 3 None None (Some 0) None) = Ok d
                /\ brief_string d = "1.2.2")
  /\ String.prefix "1.2.2" "1.2.3" = false.
Proof.
  split; [reflexivity|]. split; [|reflexivity].
  exists (Build_version 1 2 2 None None None None). split; reflexivity.
Qed.

(** C10.  A version constructed with dev count 0 and no prerelease type
    renders exactly like the bare final release of its triple in the
    canonical, debian and rpm forms, namely as the brief string.  In the
    order it stands where that final release stands: any prerelease and any
    dev build with a positive dev count of the triple is [<] it, it is not
    [<] them and it is [>] them, and neither it nor the final release is
    [<] the other.  It is nevertheless not [==] to the final release. *)
Theorem dev_count_zero_acts_as_final
    (major minor patch : Z) (s : option Z) (h : option string)
    (v f : SemanticVersion)
    (Hv : __init__ major minor patch None s (Some 0) h = Ok v)
    (Hf : __init__ major minor patch None None None None = Ok f) :
  (release_string v = Ok (brief_string f) /\ release_string f = Ok (brief_string f)
   /\ debian_string v = Ok (brief_string f) /\ debian_string f = Ok (brief_string f)
   /\ rpm_string v = Ok (brief_string f) /\ rpm_string f = Ok (brief_string f))
  /\ (forall b, same_triple v b ->
      (is_prerelease b = true \/ exists n, _dev_count b = Some n /\ 0 < n) ->
      (__lt__ b (Version v) = Ok true /\ __lt__ v (Version b) = Ok false
       /\ __gt__ v (Version b) = Ok true)
      /\ (__lt__ b (Version f) = Ok true /\ __lt__ f (Version b) = Ok false
          /\ __gt__ f (Version b) = Ok true))
  /\ (__lt__ v (Version f) = Ok false /\ __lt__ f (Version v) = Ok false)
  /\ __eq__ v (Version f) = Ok false.
Proof.
  injection Hv as <-. injection Hf as <-.
  set (v := Build_version major minor patch None s (Some 0) h).
  set (f := Build_version major minor patch None None None None).
  assert (Tvf : same_triple v f) by (repeat split).
  assert (Fv : is_final v = true) by reflexivity.
  assert (Ff : is_final f = true) by reflexivity.
  split; [|split; [|split]].
  - unfold release_string, debian_string, rpm_string.
    rewrite !long_version_unqualified by reflexivity.
    rewrite (brief_string_triple v f Tvf). repeat split; reflexivity.
  - intros b Tvb Q.
    assert (Q' : is_prerelease b || is_dev b = true).
    { destruct Q as [-> | (n & E & Hn)]; [reflexivity|].
      unfold is_dev. rewrite E. simpl.
      replace (n =? 0) with false by (symmetry; apply Z.eqb_neq; lia).
      apply orb_true_r. }
    assert (Tfb : same_triple f b)
      by (destruct Tvb as (E1 & E2 & E3); repeat split; assumption).
    split.
    + split; [now apply qualified_lt_final|].
      split; [now apply final_not_lt|].
      now destruct (final_gt_qualified v b Tvb Fv Q') as (G & _).
    + split; [now apply qualified_lt_final|].
      split; [now apply final_not_lt|].
      now destruct (final_gt_qualified f b Tfb Ff Q') as (G & _).
  - split; apply final_not_lt; auto using same_triple_sym.
  - unfold __eq__. f_equal. apply dict_eqb_neq. discriminate.
Qed.

Lemma dev_count_zero_acts_as_final_witness :
  release_string (Build_version 1 0 0 None None (Some 0) (Some "83bef74"))
  = Ok (brief_string (Build_version 1 0 0 None None None None))
  /\ __eq__ (Build_version 1 0 0 None None (Some 0) (Some "83bef74"))
            (Version (Build_version 1 0 0 None None None None)) = Ok false.
Proof.
  pose proof (dev_count_zero_acts_as_final 1 0 0 None (Some "83bef74")
                (Build_version 1 0 0 None None (Some 0) (Some "83bef74"))
                (Build_version 1 0 0 None None None None) eq_refl eq_refl) as H.
  split; [exact (proj1 (proj1 H)) | exact (proj2 (proj2 (proj2 H)))].
Defined.

(** ** Text: character classes, splitting and decimal literals *)

Ltac ascii_cases c :=
  destruct c as [[|] [|] [|] [|] [|] [|] [|] [|]]; try discriminate; try reflexivity.

Lemma digit_class (c : ascii) :
  isdigit c = true ->
  isalpha c = false /\ isspace c = false /\ is_dot c = false
  /\ Ascii.eqb c "-" = false /\ Ascii.eqb c "+" = false.
Proof. ascii_cases c; intros _; repeat split. Qed.

Lemma alpha_class (c : ascii) :
  isalpha c = true ->
  isdigit c = false /\ isspace c = false /\ is_dot c = false
  /\ Ascii.eqb c "-" = false /\ Ascii.eqb c "+" = false /\ Ascii.eqb c "_" = false.
Proof. ascii_cases c; intros _; repeat split. Qed.

Lemma all_chars_impl (p q : ascii -> bool) (s : string) :
  (forall c, p c = true -> q c = true) ->
  all_chars p s = true -> all_chars q s = true.
Proof.
  intro H. induction s as [|c s IH]; simpl; [reflexivity|].
  intro A. apply andb_prop in A. destruct A as [A1 A2].
  now rewrite (H c A1), (IH A2).
Qed.

Lemma all_chars_app (p : ascii -> bool) (a b : string) :
  all_chars p (a ++ b) = all_chars p a && all_chars p b.
Proof.
  induction a as [|c a IH]; simpl; [reflexivity|].
  now rewrite IH, andb_assoc.
Qed.

Lemma has_alpha_cons (c : ascii) (s : string) :
  has_alpha (String c s) = isalpha c || has_alpha s.
Proof.
  unfold has_alpha. simpl. now destruct (isalpha c), (all_chars _ s).
Qed.

Lemma has_alpha_app (a b : string) : has_alpha (a ++ b) = has_alpha a || has_alpha b.
Proof.
  induction a as [|c a IH]; [reflexivity|].
  simpl append. now rewrite !has_alpha_cons, IH, orb_assoc.
Qed.

Lemma all_alpha_has_alpha (c : ascii) (s : string) :
  all_chars isalpha (String c s) = true -> has_alpha (String c s) = true.
Proof.
  simpl. intro A. apply andb_prop in A. destruct A as [A _].
  now rewrite has_alpha_cons, A.
Qed.

(** Splitting on dots. *)

Lemma split_dot_no_dot (s : string) : no_dot s = true -> split_dot s = [s].
Proof.
  unfold no_dot, is_dot. induction s as [|c s IH]; simpl; [reflexivity|].
  intro A. apply andb_prop in A. destruct A as [A1 A2].
  apply negb_true_iff in A1. rewrite A1, (IH A2). reflexivity.
Qed.

Lemma split_dot_app (a b : string) :
  no_dot a = true -> split_dot (a ++ "." ++ b) = a :: split_dot b.
Proof.
  unfold no_dot, is_dot. induction a as [|c a IH]; simpl; [reflexivity|].
  intro A. apply andb_prop in A. destruct A as [A1 A2].
  apply negb_true_iff in A1. rewrite A1. simpl in IH. rewrite (IH A2). reflexivity.
Qed.

(** Scanning a segment. *)

Lemma dropwhile_stop (p : ascii -> bool) (c : ascii) (s : string) :
  p c = false -> dropwhile p (String c s) = String c s.
Proof. intro H. simpl. now rewrite H. Qed.

Lemma takewhile_app (p : ascii -> bool) (a b : string) :
  all_chars p a = true -> takewhile p (a ++ b) = a ++ takewhile p b.
Proof.
  induction a as [|c a IH]; simpl; [reflexivity|].
  intro A. apply andb_prop in A. destruct A as [A1 A2].
  now rewrite A1, (IH A2).
Qed.

Lemma takewhile_none (p : ascii -> bool) (s : string) :
  all_chars (fun c => negb (p c)) s = true -> takewhile p s = "".
Proof.
  destruct s as [|c s]; simpl; [reflexivity|].
  intro A. apply andb_prop in A. destruct A as [A _].
  apply negb_true_iff in A. now rewrite A.
Qed.

Lemma slice_from_app (a b : string) : slice_from (String.length a) (a ++ b) = b.
Proof. induction a as [|c a IH]; simpl; [now destruct b | exact IH]. Qed.

(** Blanks. *)

Lemma rstrip_no_space (s : string) :
  all_chars (fun c => negb (isspace c)) s = true -> rstrip s = s.
Proof.
  induction s as [|c s IH]; simpl; [reflexivity|].
  intro A. apply andb_prop in A. destruct A as [A1 A2].
  apply negb_true_iff in A1. now rewrite A1, (IH A2).
Qed.

Lemma strip_no_space (s : string) :
  all_chars (fun c => negb (isspace c)) s = true -> strip s = s.
Proof.
  intro A. unfold strip.
  assert (E : dropwhile isspace s = s).
  { destruct s as [|c s]; [reflexivity|]. simpl in A |- *.
    apply andb_prop in A. destruct A as [A _].
    apply negb_true_iff in A. now rewrite A. }
  rewrite E. now apply rstrip_no_space.
Qed.

Lemma has_alpha_dropwhile_space (s : string) :
  has_alpha (dropwhile isspace s) = has_alpha s.
Proof.
  induction s as [|c s IH]; [reflexivity|]. simpl.
  destruct (isspace c) eqn:E; [|reflexivity].
  rewrite IH, has_alpha_cons.
  destruct (isalpha c) eqn:A; [|reflexivity].
  apply alpha_class in A. destruct A as (_ & A & _). congruence.
Qed.

Lemma has_alpha_rstrip (s : string) : has_alpha (rstrip s) = has_alpha s.
Proof.
  induction s as [|c s IH]; [reflexivity|]. simpl.
  destruct (isspace c && is_empty (rstrip s)) eqn:E.
  - apply andb_prop in E. destruct E as [E1 E2].
    rewrite has_alpha_cons, <- IH.
    destruct (rstrip s); [|discriminate].
    destruct (isalpha c) eqn:A; [|reflexivity].
    apply alpha_class in A. destruct A as (_ & A & _). congruence.
  - now rewrite !has_alpha_cons, IH.
Qed.

Lemma has_alpha_strip (s : string) : has_alpha (strip s) = has_alpha s.
Proof. unfold strip. now rewrite has_alpha_rstrip, has_alpha_dropwhile_space. Qed.

(** A literal with a letter in it is not an integer. *)

Lemma int_body_alpha (s : string) :
  has_alpha s = true -> forall b, int_body b s = None.
Proof.
  induction s as [|c s IH]; [discriminate|].
  rewrite has_alpha_cons. intros H b. simpl.
  destruct (isdigit c) eqn:D.
  - apply digit_class in D. destruct D as (D & _). rewrite D in H.
    simpl in H. now rewrite (IH H).
  - destruct (Ascii.eqb c "_") eqn:U; [|reflexivity].
    destruct b; [|reflexivity].
    apply IH. destruct (isalpha c) eqn:A; [|exact H].
    apply alpha_class in A. destruct A as (_ & _ & _ & _ & _ & A). congruence.
Qed.

Lemma int_of_text_alpha (s : string) : has_alpha s = true -> int_of_text s = None.
Proof.
  intro H. unfold int_of_text. rewrite <- has_alpha_strip in H.
  destruct (strip s) as [|c r]; [reflexivity|].
  unfold int_literal.
  destruct (Ascii.eqb c "-") eqn:Em; [|destruct (Ascii.eqb c "+") eqn:Ep].
  - rewrite has_alpha_cons in H.
    destruct (isalpha c) eqn:A.
    + apply alpha_class in A. destruct A as (_ & _ & _ & A & _). congruence.
    + now rewrite (int_body_alpha r H).
  - rewrite has_alpha_cons in H.
    destruct (isalpha c) eqn:A.
    + apply alpha_class in A. destruct A as (_ & _ & _ & _ & A & _). congruence.
    + now rewrite (int_body_alpha r H).
  - now rewrite (int_body_alpha _ H).
Qed.

(** Decimal literals: what [str] prints, [int] reads back. *)

Lemma uint_digits (d : Decimal.uint) :
  all_chars isdigit (NilEmpty.string_of_uint d) = true.
Proof. induction d; simpl; auto. Qed.

Lemma int_body_uint (d : Decimal.uint) (b : bool) :
  d <> Decimal.Nil \/ b = true ->
  int_body b (NilEmpty.string_of_uint d) = Some d.
Proof.
  revert b. induction d; intros b H;
    try (simpl; rewrite IHd by (now right); reflexivity).
  destruct H as [H | ->]; [now elim H | reflexivity].
Qed.

Lemma nilzero_uint (d : Decimal.uint) :
  d <> Decimal.Nil -> NilZero.string_of_uint d = NilEmpty.string_of_uint d.
Proof. destruct d; intro H; [now elim H | reflexivity ..]. Qed.

Lemma str_of_int_shape (z : Z) :
  exists (d : Decimal.uint), d <> Decimal.Nil /\ Z.of_uint d = Z.abs z
    /\ str_of_int z
       = (if z <? 0 then "-" else "") ++ NilEmpty.string_of_uint d.
Proof.
  unfold str_of_int. destruct z as [|p|p]; simpl.
  - exists (Decimal.D0 Decimal.Nil). repeat split. discriminate.
  - exists (Pos.to_uint p). split; [apply DecimalPos.Unsigned.to_uint_nonnil|].
    split.
    + unfold Z.of_uint. now rewrite DecimalPos.Unsigned.of_to.
    + apply nilzero_uint, DecimalPos.Unsigned.to_uint_nonnil.
  - exists (Pos.to_uint p). split; [apply DecimalPos.Unsigned.to_uint_nonnil|].
    split.
    + unfold Z.of_uint. now rewrite DecimalPos.Unsigned.of_to.
    + f_equal. apply nilzero_uint, DecimalPos.Unsigned.to_uint_nonnil.
Qed.

Lemma str_of_int_chars (z : Z) :
  all_chars (fun c => isdigit c || Ascii.eqb c "-") (str_of_int z) = true.
Proof.
  destruct (str_of_int_shape z) as (d & _ & _ & ->).
  rewrite all_chars_app.
  assert (D : all_chars (fun c => isdigit c || Ascii.eqb c "-")
                (NilEmpty.string_of_uint d) = true).
  { apply (all_chars_impl isdigit); [|apply uint_digits].
    intros c ->. reflexivity. }
  rewrite D. now destruct (z <? 0).
Qed.

Lemma int_char_class (c : ascii) :
  isdigit c || Ascii.eqb c "-" = true ->
  isspace c = false /\ isalpha c = false /\ is_dot c = false.
Proof. ascii_cases c; intros _; repeat split. Qed.

Lemma str_of_int_no_space (z : Z) :
  all_chars (fun c => negb (isspace c)) (str_of_int z) = true.
Proof.
  apply (all_chars_impl (fun c => isdigit c || Ascii.eqb c "-"));
    [|apply str_of_int_chars].
  intros c H. apply int_char_class in H. destruct H as (-> & _). reflexivity.
Qed.

Lemma str_of_int_no_alpha (z : Z) :
  all_chars (fun c => negb (isalpha c)) (str_of_int z) = true.
Proof.
  apply (all_chars_impl (fun c => isdigit c || Ascii.eqb c "-"));
    [|apply str_of_int_chars].
  intros c H. apply int_char_class in H. destruct H as (_ & -> & _). reflexivity.
Qed.

Lemma str_of_int_no_dot (z : Z) : no_dot (str_of_int z) = true.
Proof.
  apply (all_chars_impl (fun c => isdigit c || Ascii.eqb c "-"));
    [|apply str_of_int_chars].
  intros c H. apply int_char_class in H. destruct H as (_ & _ & ->). reflexivity.
Qed.

Lemma int_literal_uint (d : Decimal.uint) :
  d <> Decimal.Nil ->
  int_literal (NilEmpty.string_of_uint d) = Some (Z.of_uint d).
Proof.
  intro H. pose proof (int_body_uint d false (or_introl H)) as B.
  pose proof (uint_digits d) as D.
  destruct (NilEmpty.string_of_uint d) as [|c r] eqn:E.
  - discriminate B.
  - simpl in D. apply andb_prop in D. destruct D as [D _].
    apply digit_class in D. destruct D as (_ & _ & _ & Dm & Dp).
    unfold int_literal. rewrite Dm, Dp, B. reflexivity.
Qed.

Lemma int_of_text_str_of_int (z : Z) : int_of_text (str_of_int z) = Some z.
Proof.
  unfold int_of_text. rewrite (strip_no_space _ (str_of_int_no_space z)).
  destruct (str_of_int_shape z) as (d & Hd & Hz & ->).
  destruct (Z.ltb_spec z 0) as [Neg|Pos].
  - change ("-" ++ NilEmpty.string_of_uint d)
      with (String "-" (NilEmpty.string_of_uint d)).
    unfold int_literal. simpl Ascii.eqb. cbv iota.
    rewrite (int_body_uint d false (or_introl Hd)). simpl. f_equal. lia.
  - change ("" ++ NilEmpty.string_of_uint d) with (NilEmpty.string_of_uint d).
    rewrite (int_literal_uint d Hd). f_equal. lia.
Qed.

Lemma int_str_of_int (z : Z) : int (VStr (str_of_int z)) = Ok z.
Proof. unfold int. now rewrite int_of_text_str_of_int. Qed.

(** ** Parsing: the two layouts *)

Lemma from_pip_string_components
    (s c0 c1 c2 : string) (rest : list string) (major minor patch : Z) :
  split_dot s = c0 :: c1 :: c2 :: rest ->
  int_of_text c0 = Some major -> int_of_text c1 = Some minor ->
  int_of_text c2 = Some patch ->
  from_pip_string s
  = ('(t, n, d, h) <- parse_remainder (map VStr rest) ;;
     __init__ major minor patch t n d h).
Proof.
  intros S E0 E1 E2. unfold from_pip_string. rewrite S.
  cbn [map List.length Nat.ltb Nat.leb item nth_error bind].
  unfold _is_int, int. rewrite E0, E1, E2.
  cbn [bind skipn]. reflexivity.
Qed.

Lemma starts_with_int_alpha (seg : string) (rest : list value) :
  has_alpha seg = true -> starts_with_int (VStr seg :: rest) = Ok false.
Proof.
  intro H. unfold starts_with_int, int. now rewrite (int_of_text_alpha seg H).
Qed.

Lemma parse_type_segment (zeros letters : string) (c : ascii) (serial : string)
    (n : Z) :
  all_chars isdigit zeros = true ->
  all_chars isalpha (String c letters) = true ->
  all_chars (fun x => negb (isalpha x)) serial = true ->
  int_of_text serial = Some n ->
  _parse_type (VStr (zeros ++ String c letters ++ serial))
  = Ok (String c letters, n).
Proof.
  intros Z A S I. unfold _parse_type, chars. cbn [bind].
  assert (D : dropwhile isdigit (zeros ++ String c letters ++ serial)
              = String c letters ++ serial).
  { clear I S. induction zeros as [|z zeros IH]; simpl in Z |- *.
    - apply andb_prop in A. destruct A as [A _].
      apply alpha_class in A. destruct A as (-> & _). reflexivity.
    - apply andb_prop in Z. destruct Z as [-> Z]. now apply IH. }
  rewrite D, (takewhile_app isalpha _ _ A), (takewhile_none isalpha _ S).
  rewrite append_nil_r, slice_from_app.
  unfold int. rewrite I. reflexivity.
Qed.

Lemma parse_remainder_nil : parse_remainder [] = Ok (None, None, None, None).
Proof. reflexivity. Qed.

Lemma parse_remainder_prerelease (c : ascii) (letters : string) (n : Z) :
  all_chars isalpha (String c letters) = true ->
  parse_remainder [VStr ("0" ++ String c letters ++ str_of_int n)]
  = Ok (Some (String c letters), Some n, None, None).
Proof.
  intro A. unfold parse_remainder.
  rewrite starts_with_int_alpha.
  2:{ change ("0" ++ String c letters ++ str_of_int n)
        with (String "0" (String c letters ++ str_of_int n)).
      rewrite has_alpha_cons, has_alpha_app, (all_alpha_has_alpha _ _ A).
      reflexivity. }
  cbn [bind first_char append]. change (prerelease_marker "0") with true.
  cbv iota.
  change (String "0" (String c (letters ++ str_of_int n)))
    with ("0" ++ String c letters ++ str_of_int n).
  rewrite (parse_type_segment "0" letters c (str_of_int n) n eq_refl A
             (str_of_int_no_alpha n) (int_of_text_str_of_int n)).
  reflexivity.
Qed.

Lemma parse_remainder_dev (n : Z) (more : list string) :
  parse_remainder (VStr ("dev" ++ str_of_int n) :: map VStr more)
  = Ok (None, None, Some n,
        match more with
        | g :: _ => Some (slice_from 1 g)
        | [] => None
        end).
Proof.
  unfold parse_remainder.
  rewrite starts_with_int_alpha by reflexivity.
  cbn [bind first_char append]. change (prerelease_marker "d") with false.
  cbv iota. cbn [bind tail_from slice_from].
  rewrite int_str_of_int. cbn [bind].
  destruct more as [|g more]; reflexivity.
Qed.

Lemma brief_string_eq (v : SemanticVersion) :
  brief_string v
  = str_of_int (_major v) ++ "." ++ str_of_int (_minor v) ++ "."
    ++ str_of_int (_patch v).
Proof. reflexivity. Qed.

Lemma split_dot_brief (v : SemanticVersion) (tail : string) :
  split_dot (brief_string v ++ "." ++ tail)
  = str_of_int (_major v) :: str_of_int (_minor v) :: str_of_int (_patch v)
    :: split_dot tail.
Proof.
  rewrite brief_string_eq, !append_assoc.
  now rewrite !split_dot_app by apply str_of_int_no_dot.
Qed.

Lemma split_dot_brief_only (v : SemanticVersion) :
  split_dot (brief_string v)
  = [str_of_int (_major v); str_of_int (_minor v); str_of_int (_patch v)].
Proof.
  rewrite brief_string_eq.
  rewrite !split_dot_app by apply str_of_int_no_dot.
  now rewrite split_dot_no_dot by apply str_of_int_no_dot.
Qed.

Lemma from_pip_string_brief (v : SemanticVersion) (s : string) (rest : list string) :
  split_dot s
  = str_of_int (_major v) :: str_of_int (_minor v) :: str_of_int (_patch v) :: rest ->
  from_pip_string s
  = ('(t, n, d, h) <- parse_remainder (map VStr rest) ;;
     __init__ (_major v) (_minor v) (_patch v) t n d h).
Proof.
  intro S. apply (from_pip_string_components s _ _ _ rest _ _ _ S);
    apply int_of_text_str_of_int.
Qed.

Lemma parsed_release_string (v : SemanticVersion) :
  constructed v = true -> unambiguous v = true ->
  exists s, release_string v = Ok s /\ from_pip_string s = Ok v.
Proof.
  intros C U. unfold release_string, _long_version.
  destruct v as [M m p t sr d h]. unfold constructed, unambiguous in C, U.
  cbn [_prerelease_type _prerelease _dev_count _githash] in *.
  destruct t as [ty|].
  - (* a prerelease *)
    destruct d as [n|]; [discriminate C|].
    destruct h as [h|]; [now rewrite andb_false_r in U|].
    rewrite andb_true_r in U. apply andb_prop in U. destruct U as [U1 U2].
    destruct ty as [|c letters]; [discriminate U1|].
    destruct sr as [k|]; [|discriminate C].
    eexists. split; [reflexivity|].
    cbn [truthy_str truthy_int is_empty negb orb andb is_none bind app join
         fold_right str of_str of_int].
    rewrite append_nil_r.
    set (v := Build_version M m p (Some (String c letters)) (Some k) None None).
    change ("." ++ "0" ++ String c letters ++ str_of_int k)
      with ("." ++ ("0" ++ String c letters ++ str_of_int k)).
    rewrite (from_pip_string_brief v _
               ["0" ++ String c letters ++ str_of_int k]).
    + cbn [map]. rewrite (parse_remainder_prerelease c letters k U2).
      cbn [bind]. apply (constructed_init v). reflexivity.
    + rewrite split_dot_brief. cbn [_major _minor _patch v]. do 3 f_equal.
      apply split_dot_no_dot. unfold no_dot.
      change ("0" ++ String c letters ++ str_of_int k)
        with (String "0" (String c letters ++ str_of_int k)).
      cbn [all_chars]. rewrite all_chars_app.
      fold (no_dot (str_of_int k)). rewrite str_of_int_no_dot, andb_true_r.
      cbn [is_dot Ascii.eqb Bool.eqb negb andb].
      apply (all_chars_impl isalpha); [|exact U2].
      intros x Hx. apply alpha_class in Hx. destruct Hx as (_ & _ & -> & _).
      reflexivity.
  - (* no prerelease type *)
    destruct sr as [k|]; [discriminate U|].
    destruct d as [n|].
    + (* a dev build *)
      cbn [andb is_none] in U. apply andb_prop in U. destruct U as [U1 U2].
      cbn [_prerelease_type _prerelease _dev_count _githash truthy_str
           truthy_int orb is_none].
      rewrite andb_false_r, U1. cbn [bind].
      destruct h as [h|].
      * apply andb_prop in U2. destruct U2 as [U2 U3].
        cbn [truthy_str]. rewrite U2.
        eexists. split; [reflexivity|].
        cbn [app join fold_right str of_str of_int].
        rewrite append_nil_r.
        set (v := Build_version M m p None None (Some n) (Some h)).
        change ("." ++ "dev" ++ str_of_int n ++ ".g" ++ h)
          with ("." ++ ("dev" ++ str_of_int n ++ "." ++ "g" ++ h)).
        rewrite (from_pip_string_brief v _ ["dev" ++ str_of_int n; "g" ++ h]).
        -- change (map VStr ["dev" ++ str_of_int n; "g" ++ h])
             with (VStr ("dev" ++ str_of_int n) :: map VStr ["g" ++ h]).
           rewrite parse_remainder_dev. reflexivity.
        -- rewrite split_dot_brief. cbn [_major _minor _patch v]. do 3 f_equal.
           rewrite <- append_assoc.
           rewrite split_dot_app.
           ++ f_equal. apply split_dot_no_dot. exact U3.
           ++ unfold no_dot. rewrite all_chars_app.
              fold (no_dot (str_of_int n)). now rewrite str_of_int_no_dot.
      * eexists. split; [reflexivity|].
        cbn [truthy_str app join fold_right str of_str of_int].
        rewrite append_nil_r.
        set (v := Build_version M m p None None (Some n) None).
        change ("." ++ "dev" ++ str_of_int n)
          with ("." ++ ("dev" ++ str_of_int n)).
        rewrite (from_pip_string_brief v _ ["dev" ++ str_of_int n]).
        -- change (map VStr ["dev" ++ str_of_int n])
             with (VStr ("dev" ++ str_of_int n) :: map VStr []).
           rewrite parse_remainder_dev. reflexivity.
        -- rewrite split_dot_brief. cbn [_major _minor _patch v]. do 3 f_equal.
           apply split_dot_no_dot. unfold no_dot. rewrite all_chars_app.
           fold (no_dot (str_of_int n)). now rewrite str_of_int_no_dot.
    + (* a final release *)
      destruct h as [h|]; [discriminate U|].
      eexists. split; [reflexivity|].
      cbn [truthy_str truthy_int orb andb bind join fold_right str].
      rewrite append_nil_r.
      set (v := Build_version M m p None None None None).
      rewrite (from_pip_string_brief v _ []); [reflexivity|].
      apply split_dot_brief_only.
Qed.

(** C1.  Round trip through the canonical rendering.  For every constructed
    version whose canonical form is unambiguous (every attribute it carries
    is shown and can be told apart: a prerelease type made of letters, a
    serial only with a type, a non-zero dev count, a hash only with a dev
    count, non-empty and without dot), [release_string] returns a text,
    [from_pip_string] parses that text, and the parsed version is [==] to
    the original. *)
Theorem canonical_round_trip
    (v : SemanticVersion)
    (C : constructed v = true) (U : unambiguous v = true) :
  exists s w, release_string v = Ok s /\ from_pip_string s = Ok w
              /\ __eq__ w (Version v) = Ok true.
Proof.
  destruct (parsed_release_string v C U) as (s & R & P).
  exists s, v. repeat split; try assumption.
  unfold __eq__. f_equal. now apply dict_eqb_eq.
Qed.

Lemma canonical_round_trip_witness :
  exists s w,
    release_string (Build_version 0 10 1 None None (Some 3) (Some "83bef74")) = Ok s
    /\ from_pip_string s = Ok w
    /\ __eq__ w (Version (Build_version 0 10 1 None None (Some 3) (Some "83bef74")))
       = Ok true.
Proof.
  apply (canonical_round_trip
           (Build_version 0 10 1 None None (Some 3) (Some "83bef74"))
           eq_refl eq_refl).
Defined.

(** *** The legacy dev layout major.minor.patch.N.gHASH *)

Lemma parse_remainder_legacy (count hash : string) (more : list string) (n : Z) :
  int_of_text count = Some n -> n <> 0 ->
  parse_remainder (VStr count :: VStr hash :: map VStr more)
  = Ok (None, None, Some n, Some (slice_from 1 hash)).
Proof.
  intros I N. unfold parse_remainder, starts_with_int, int. rewrite I.
  apply Z.eqb_neq in N. rewrite N.
  cbn [negb bind item nth_error]. rewrite I. reflexivity.
Qed.

Lemma zeros_read_as_zero (s : string) :
  all_chars (Ascii.eqb "0") s = true ->
  exists d, int_body true s = Some d /\ Z.of_uint d = 0.
Proof.
  induction s as [|c s IH]; cbn [all_chars].
  - intros _. exists Decimal.Nil. split; reflexivity.
  - intro A. apply andb_prop in A. destruct A as [A1 A2].
    apply Ascii.eqb_eq in A1. subst c.
    destruct (IH A2) as (d & B & Hd).
    exists (Decimal.D0 d). simpl. rewrite B. split; [reflexivity | exact Hd].
Qed.

Lemma int_of_text_zeros (s : string) :
  all_chars (Ascii.eqb "0") (String "0" s) = true ->
  int_of_text (String "0" s) = Some 0.
Proof.
  intro A. unfold int_of_text. rewrite strip_no_space.
  - cbn [all_chars] in A. apply andb_prop in A. destruct A as [_ A].
    destruct (zeros_read_as_zero s A) as (d & B & Hd).
    unfold int_literal. simpl. rewrite B. simpl. f_equal. exact Hd.
  - apply (all_chars_impl (Ascii.eqb "0")); [|exact A].
    intros c H. apply Ascii.eqb_eq in H. now subst c.
Qed.

Lemma dropwhile_all (p : ascii -> bool) (s : string) :
  all_chars p s = true -> dropwhile p s = "".
Proof.
  induction s as [|c s IH]; simpl; [reflexivity|].
  intro A. apply andb_prop in A. destruct A as [-> A]. now apply IH.
Qed.

(** A legacy dev counter written with zeros only is not read as a dev
    counter: the segment goes to the prerelease reader, which finds neither
    letters nor a serial and raises. *)
Lemma parse_remainder_legacy_zero (zeros : string) (rest : list value) :
  all_chars (Ascii.eqb "0") (String "0" zeros) = true ->
  parse_remainder (VStr (String "0" zeros) :: rest) = Raise ValueError.
Proof.
  intro A. unfold parse_remainder, starts_with_int, int.
  rewrite (int_of_text_zeros zeros A).
  cbn [Z.eqb negb bind first_char]. change (prerelease_marker "0") with true.
  cbv iota. unfold _parse_type, chars. cbn [bind].
  rewrite dropwhile_all; [reflexivity|].
  apply (all_chars_impl (Ascii.eqb "0")); [|exact A].
  intros c H. apply Ascii.eqb_eq in H. now subst c.
Qed.

(** C5, at the input where the source departs from it.  The legacy layout
    with a non-zero counter parses as claimed ("0.10.1.3.g83bef74" gives
    0.10.1 with dev count 3 and hash 83bef74), but with the counter 0
    ("0.10.1.0.g83bef74") [from_pip_string] raises ValueError instead of
    returning dev count 0 with hash 83bef74. *)
Theorem legacy_dev_counter_zero_raises :
  from_pip_string "0.10.1.0.g83bef74" = Raise ValueError
  /\ from_pip_string "0.10.1.3.g83bef74"
     = Ok (Build_version 0 10 1 None None (Some 3) (Some "83bef74")).
Proof. split; reflexivity. Qed.

(** The legacy layout in general: with a counter that [int] reads as a
    non-zero number the version has that dev count and the next component,
    less its first character, as hash; with a counter of zeros it raises. *)
Lemma from_pip_string_legacy
    (s c0 c1 c2 count hash : string) (more : list string)
    (major minor patch n : Z) :
  split_dot s = c0 :: c1 :: c2 :: count :: hash :: more ->
  int_of_text c0 = Some major -> int_of_text c1 = Some minor ->
  int_of_text c2 = Some patch -> int_of_text count = Some n ->
  (n <> 0 ->
   from_pip_string s
   = Ok (Build_version major minor patch None None (Some n)
           (Some (slice_from 1 hash))))
  /\ (all_chars (Ascii.eqb "0") count = true ->
      from_pip_string s = Raise ValueError).
Proof.
  intros S E0 E1 E2 I.
  rewrite (from_pip_string_components s c0 c1 c2 _ _ _ _ S E0 E1 E2).
  cbn [map]. split.
  - intro N. now rewrite (parse_remainder_legacy count hash more n I N).
  - intro A. destruct count as [|c zeros]; [discriminate I|].
    assert (c = "0"%char) as ->.
    { cbn [all_chars] in A. apply andb_prop in A. destruct A as [A _].
      apply Ascii.eqb_eq in A. now subst c. }
    now rewrite (parse_remainder_legacy_zero zeros _ A).
Qed.

(** *** The prerelease segment *)

(** A segment that opens with the digit 0, or directly with the letter a or
    b, is read as a prerelease: leading digits are dropped, the letters are
    the type and the rest is the serial. *)
Lemma parse_remainder_marked (zeros letters serial : string) (c : ascii) (n : Z) :
  all_chars isdigit zeros = true ->
  all_chars isalpha (String c letters) = true ->
  all_chars (fun x => negb (isalpha x)) serial = true ->
  int_of_text serial = Some n ->
  ((exists z, zeros = String "0" z)
   \/ (zeros = "" /\ (c = "a"%char \/ c = "b"%char))) ->
  parse_remainder [VStr (zeros ++ String c letters ++ serial)]
  = Ok (Some (String c letters), Some n, None, None).
Proof.
  intros Z A S I M. unfold parse_remainder.
  rewrite starts_with_int_alpha
    by (rewrite !has_alpha_app, (all_alpha_has_alpha _ _ A); apply orb_true_r).
  cbn [bind].
  assert (F : exists m, first_char (VStr (zeros ++ String c letters ++ serial)) = Ok m
                        /\ prerelease_marker m = true).
  { destruct M as [(z & ->) | (-> & [-> | ->])];
      eexists; (split; [reflexivity|reflexivity]). }
  destruct F as (m & -> & Hm). cbn [bind]. rewrite Hm.
  rewrite (parse_type_segment zeros letters c serial n Z A S I).
  reflexivity.
Qed.

(** Any other opening character sends a segment with letters to the dev
    reader, which skips three characters and reads the rest as the count.
    This is what happens to a segment that opens with "rc": its first
    character, "r", is looked up among "a", "b" and "rc". *)
Lemma parse_remainder_unmarked (c : ascii) (rest : string) :
  has_alpha (String c rest) = true ->
  c <> "0"%char -> c <> "a"%char -> c <> "b"%char ->
  parse_remainder [VStr (String c rest)]
  = (n <- int (VStr (slice_from 2 rest)) ;; Ok (None, None, Some n, None)).
Proof.
  intros H N0 Na Nb. unfold parse_remainder.
  rewrite (starts_with_int_alpha _ _ H). cbn [bind first_char].
  assert (M : prerelease_marker (String c "") = false).
  { unfold prerelease_marker. cbn [existsb String.eqb].
    apply Ascii.eqb_neq in N0, Na, Nb. rewrite N0, Na, Nb.
    now destruct (Ascii.eqb c "r"). }
  rewrite M. cbn [bind tail_from].
  change (slice_from 3 (String c rest)) with (slice_from 2 rest).
  destruct (int (VStr (slice_from 2 rest))); reflexivity.
Qed.

(** C4, at the input where the source departs from it.  The leading digit
    of a qualifier is the 0 of the layout major.minor.patch.0{a|b|rc}N, the
    character the source tests.  "1.3.0a1" parses to type a (alpha) with
    serial 1, and an rc qualifier behind the leading 0 parses too, but the rc
    qualifier without leading digit, "1.2.3.rc1", makes [from_pip_string]
    raise ValueError instead of returning type rc with serial 1. *)
Theorem rc_without_leading_digit_raises :
  from_pip_string "1.2.3.rc1" = Raise ValueError
  /\ from_pip_string "1.3.0a1"
     = Ok (Build_version 1 3 0 (Some "a") (Some 1) None None)
  /\ from_pip_string "1.2.3.0rc1"
     = Ok (Build_version 1 2 3 (Some "rc") (Some 1) None None).
Proof. repeat split; reflexivity. Qed.

Lemma init_prerelease (major minor patch n : Z) (c : ascii) (letters : string) :
  __init__ major minor patch (Some (String c letters)) (Some n) None None
  = Ok (Build_version major minor patch (Some (String c letters)) (Some n) None None).
Proof.
  unfold __init__. cbn [truthy_str truthy_int is_empty is_none negb andb].
  destruct (n =? 0) eqn:E; [|reflexivity].
  apply Z.eqb_eq in E. now subst n.
Qed.

(** The fused layout major.minor.QUALIFIER, as in "1.3.0a1": the third
    component is not an integer, so the patch level is 0 and the component
    is read as the first qualifier. *)
Lemma from_pip_string_fused
    (s c0 c1 c2 : string) (rest : list string) (major minor : Z) :
  split_dot s = c0 :: c1 :: c2 :: rest ->
  int_of_text c0 = Some major -> int_of_text c1 = Some minor ->
  int_of_text c2 = None ->
  from_pip_string s
  = ('(t, n, d, h) <- parse_remainder (map VStr (c2 :: rest)) ;;
     __init__ major minor 0 t n d h).
Proof.
  intros S E0 E1 E2. unfold from_pip_string. rewrite S.
  cbn [map List.length Nat.ltb Nat.leb item nth_error bind].
  unfold _is_int, int. rewrite E0, E1, E2.
  cbn [bind skipn firstn app]. reflexivity.
Qed.

(** The part of C4 that the source implements, for every version text: a
    qualifier that opens with the digit 0, or directly with a or b, gives
    the run of letters as prerelease type and the digits after it as serial,
    whether it follows the patch level or is fused with it. *)
Lemma from_pip_string_prerelease
    (s c0 c1 c2 zeros letters serial : string) (c : ascii)
    (major minor patch n : Z) :
  int_of_text c0 = Some major -> int_of_text c1 = Some minor ->
  all_chars isdigit zeros = true ->
  all_chars isalpha (String c letters) = true ->
  all_chars (fun x => negb (isalpha x)) serial = true ->
  int_of_text serial = Some n ->
  ((exists z, zeros = String "0" z)
   \/ (zeros = "" /\ (c = "a"%char \/ c = "b"%char))) ->
  (split_dot s = [c0; c1; c2; zeros ++ String c letters ++ serial] ->
   int_of_text c2 = Some patch ->
   from_pip_string s
   = Ok (Build_version major minor patch (Some (String c letters)) (Some n)
           None None))
  /\ (split_dot s = [c0; c1; zeros ++ String c letters ++ serial] ->
      from_pip_string s
      = Ok (Build_version major minor 0 (Some (String c letters)) (Some n)
              None None)).
Proof.
  intros E0 E1 Z A S I M.
  pose proof (parse_remainder_marked zeros letters serial c n Z A S I M) as P.
  split.
  - intros Sp E2.
    rewrite (from_pip_string_components s c0 c1 c2 _ _ _ _ Sp E0 E1 E2).
    cbn [map]. rewrite P. cbn [bind]. apply init_prerelease.
  - intros Sp.
    rewrite (from_pip_string_fused s c0 c1 _ [] _ _ Sp E0 E1).
    + cbn [map]. rewrite P. cbn [bind]. apply init_prerelease.
    + apply int_of_text_alpha.
      rewrite !has_alpha_app, (all_alpha_has_alpha _ _ A). apply orb_true_r.
Qed.

(** ** What the parser can return *)

Tactic Notation "bind_ok" hyp(H) "as" simple_intropattern(x) ident(E) :=
  match type of H with
  | bind ?c _ = Ok _ =>
      destruct c as [x|] eqn:E; [cbn [bind] in H | discriminate H]
  end.

Lemma takewhile_all (p : ascii -> bool) (s : string) :
  all_chars p (takewhile p s) = true.
Proof.
  induction s as [|c s IH]; simpl; [reflexivity|].
  destruct (p c) eqn:E; [|reflexivity]. simpl. now rewrite E.
Qed.

Lemma parse_type_alpha (x : value) (ty : string) (n : Z) :
  _parse_type x = Ok (ty, n) -> all_chars isalpha ty = true.
Proof.
  unfold _parse_type. intro H.
  bind_ok H as seg E1. bind_ok H as k E2.
  injection H as <- _. apply takewhile_all.
Qed.

Lemma parse_remainder_facts
    (r : list value) (t : option string) (sr d : option Z) (h : option string) :
  parse_remainder r = Ok (t, sr, d, h) ->
  (t = None -> sr = None)
  /\ (forall ty, t = Some ty -> all_chars isalpha ty = true)
  /\ (forall h', h = Some h' ->
      exists x, In (VStr x) r /\ h' = slice_from 1 x).
Proof.
  unfold parse_remainder. intro H.
  bind_ok H as flag E1. bind_ok H as [[[t' sr'] d'] r'] E2.
  assert (F : (t' = None -> sr' = None)
              /\ (forall ty, t' = Some ty -> all_chars isalpha ty = true)
              /\ (forall x, In x r' -> In x r)).
  { destruct flag.
    - bind_ok E2 as r0 E3. bind_ok E2 as n E4. injection E2 as <- <- _ <-.
      repeat split; try discriminate; auto.
    - bind_ok E2 as [[t0 sr0] r0] E3. bind_ok E2 as dc E4.
      injection E2 as <- <- _ <-.
      destruct r as [|x rest].
      + injection E3 as <- <- <-. repeat split; try discriminate; auto.
      + bind_ok E3 as c E5. destruct (prerelease_marker c).
        * bind_ok E3 as [ty n] E6. injection E3 as <- <- <-.
          repeat split; try discriminate.
          -- intros ty' [= <-]. now apply (parse_type_alpha x ty n).
          -- intros y Hy. now right.
        * injection E3 as <- <- <-. repeat split; try discriminate; auto. }
  destruct F as (F1 & F2 & F3).
  bind_ok H as gh E3. injection H as <- <- <- <-.
  repeat split; try assumption.
  intros h' ->.
  destruct (1 <? List.length r')%nat; [|discriminate E3].
  bind_ok E3 as r1 E4. bind_ok E3 as tl E5. injection E3 as <-.
  unfold item in E4. destruct (nth_error r' 1) as [y|] eqn:N; [|discriminate E4].
  injection E4 as <-. apply nth_error_In in N.
  destruct y as [| |x]; try discriminate E5.
  injection E5 as <-. exists x. split; [now apply F3 | reflexivity].
Qed.

Lemma in_skipn {A : Type} (x : A) (n : nat) (l : list A) :
  In x (skipn n l) -> In x l.
Proof.
  intro H. rewrite <- (firstn_skipn n l). apply in_or_app. now right.
Qed.

Lemma split_dot_parts (s x : string) : In x (split_dot s) -> no_dot x = true.
Proof.
  revert x. induction s as [|c s IH]; intros x; simpl.
  - intros [<- | []]. reflexivity.
  - destruct (Ascii.eqb c ".") eqn:E.
    + intros [<- | H]; [reflexivity | now apply IH].
    + destruct (split_dot s) as [|y ys].
      * intros [<- | []]. unfold no_dot, is_dot. simpl. now rewrite E.
      * intros [<- | H].
        -- unfold no_dot, is_dot. cbn [all_chars]. rewrite E.
           apply (IH y). now left.
        -- apply IH. now right.
Qed.

Lemma no_dot_slice (n : nat) (x : string) :
  no_dot x = true -> no_dot (slice_from n x) = true.
Proof.
  unfold no_dot. revert x. induction n as [|n IH]; intros x H; [exact H|].
  destruct x as [|c x]; [reflexivity|]. simpl in H |- *.
  apply andb_prop in H. destruct H as [_ H]. now apply IH.
Qed.

Lemma from_pip_string_facts (s : string) (w : SemanticVersion) :
  from_pip_string s = Ok w ->
  (_prerelease_type w = None -> _prerelease w = None)
  /\ (forall ty, _prerelease_type w = Some ty -> all_chars isalpha ty = true)
  /\ (forall h, _githash w = Some h -> no_dot h = true).
Proof.
  unfold from_pip_string.
  set (split := map VStr (split_dot s)).
  set (components := if (List.length split <? 3)%nat
                     then (split ++ repeat (VInt 0) (3 - List.length split))%list
                     else split).
  assert (Hc : forall x, In (VStr x) components -> In x (split_dot s)).
  { intros x. unfold components.
    assert (Hs : In (VStr x) split -> In x (split_dot s)).
    { unfold split. rewrite in_map_iff. now intros (y & [= ->] & Hy). }
    destruct (List.length split <? 3)%nat; [|exact Hs].
    intro H. apply in_app_or in H. destruct H as [H | H]; [now apply Hs|].
    apply repeat_spec in H. discriminate H. }
  clearbody components. clear split. intro H.
  bind_ok H as c0 E0. bind_ok H as major E1. bind_ok H as c1 E2.
  bind_ok H as minor E3. bind_ok H as c2 E4. bind_ok H as c2_is_int E5.
  bind_ok H as [patch components'] E6.
  bind_ok H as [[[t sr] d] h] E7.
  assert (Hc' : forall x, In (VStr x) (skipn 3 components') -> In x (split_dot s)).
  { intros x Hx. apply Hc. destruct c2_is_int.
    - bind_ok E6 as k E8. injection E6 as _ <-. now apply (in_skipn _ 3).
    - injection E6 as _ <-. apply in_skipn in Hx.
      apply in_app_or in Hx. destruct Hx as [Hx | [Hx | Hx]].
      + rewrite <- (firstn_skipn 2 components). apply in_or_app. now left.
      + discriminate Hx.
      + now apply (in_skipn _ 2). }
  destruct (parse_remainder_facts _ _ _ _ _ E7) as (F1 & F2 & F3).
  destruct (init_fields _ _ _ _ _ _ _ _ H) as (_ & _ & _ & Ht & _ & Hh & Hs).
  rewrite Ht, Hh, Hs. repeat split.
  - intros ->. simpl. now apply F1.
  - exact F2.
  - intros h' Hh'. destruct (F3 h' Hh') as (x & Hx & ->).
    apply no_dot_slice, (split_dot_parts s), Hc', Hx.
Qed.

(** ** The round trip holds for no other version *)

Lemma release_string_shown (v : SemanticVersion) :
  release_string (shown v) = release_string v.
Proof.
  unfold release_string, _long_version, shown.
  destruct v as [M m p t sr d h].
  cbn [_major _minor _patch _prerelease_type _prerelease _dev_count _githash
       is_none].
  rewrite !andb_false_r. cbn [bind].
  destruct (truthy_str t) eqn:T, (truthy_int d) eqn:D, (truthy_str h) eqn:H;
    cbn [andb truthy_str truthy_int]; rewrite ?T, ?D, ?H; reflexivity.
Qed.

Lemma shown_constructed (v : SemanticVersion) :
  constructed v = true -> constructed (shown v) = true.
Proof.
  unfold constructed, shown. destruct v as [M m p t sr d h].
  cbn [_prerelease_type _prerelease _dev_count].
  destruct t as [ty|], d as [n|]; try discriminate; intro C.
  - destruct (truthy_str (Some ty)) eqn:T; [|reflexivity].
    cbn [is_none negb andb]. now rewrite T.
  - destruct (truthy_int (Some n)); reflexivity.
  - reflexivity.
Qed.

Lemma shown_unambiguous (v : SemanticVersion) :
  (forall ty, _prerelease_type v = Some ty -> all_chars isalpha ty = true) ->
  (forall h, _githash v = Some h -> no_dot h = true) ->
  unambiguous (shown v) = true.
Proof.
  unfold unambiguous, shown. destruct v as [M m p t sr d h].
  cbn [_prerelease_type _prerelease _dev_count _githash]. intros Ht Hh.
  apply andb_true_intro. split.
  - destruct t as [[|c ty]|]; try reflexivity.
    cbn [truthy_str is_empty negb andb]. now apply Ht.
  - destruct d as [n|]; [|reflexivity].
    cbn [truthy_int]. destruct (n =? 0) eqn:E; [reflexivity|].
    cbn [negb andb]. rewrite E.
    destruct h as [[|c h]|]; try reflexivity.
    cbn [truthy_str is_empty negb andb]. now apply Hh.
Qed.

Lemma shown_fixed_unambiguous (v : SemanticVersion) :
  shown v = v -> unambiguous (shown v) = true -> unambiguous v = true.
Proof. now intros ->. Qed.

(** The condition of C1 is exactly the one under which the round trip
    holds: a constructed version that comes back from its canonical text is
    unambiguous. *)
Lemma round_trip_only_if_unambiguous (v : SemanticVersion) (s : string) :
  constructed v = true ->
  release_string v = Ok s -> from_pip_string s = Ok v ->
  unambiguous v = true.
Proof.
  intros C R P.
  destruct (from_pip_string_facts s v P) as (_ & Ft & Fh).
  pose proof (shown_unambiguous v Ft Fh) as U'.
  destruct (parsed_release_string (shown v) (shown_constructed v C) U')
    as (s' & R' & P').
  rewrite release_string_shown, R in R'. injection R' as <-.
  rewrite P in P'. injection P' as E.
  apply shown_fixed_unambiguous; [now symmetry | exact U'].
Qed.

(** * Further properties of the module *)

(** ** Ordering text and triples *)

Lemma string_compare_refl (s : string) : String.compare s s = Eq.
Proof.
  induction s as [|c s IH]; simpl; [reflexivity|].
  unfold Ascii.compare. now rewrite N.compare_refl.
Qed.

Lemma string_ltb_irrefl (s : string) : String.ltb s s = false.
Proof. unfold String.ltb. now rewrite string_compare_refl. Qed.

Lemma string_ltb_asym (a b : string) :
  String.ltb a b = true -> String.ltb b a = false.
Proof.
  unfold String.ltb. rewrite (String.compare_antisym b a).
  now destruct (String.compare a b).
Qed.

Lemma string_ltb_neq (a b : string) : String.ltb a b = true -> String.eqb a b = false.
Proof.
  intro H. apply String.eqb_neq. intros ->.
  rewrite string_ltb_irrefl in H. discriminate.
Qed.

Lemma string_compare_lt_trans (a b c : string) :
  String.compare a b = Lt -> String.compare b c = Lt -> String.compare a c = Lt.
Proof.
  revert b c. induction a as [|x a IH]; intros [|y b] [|z c]; simpl;
    try discriminate; try reflexivity.
  unfold Ascii.compare.
  destruct (N.compare_spec (N_of_ascii x) (N_of_ascii y)) as [E1|L1|G1];
    try discriminate;
    destruct (N.compare_spec (N_of_ascii y) (N_of_ascii z)) as [E2|L2|G2];
    try discriminate; intros H1 H2.
  - rewrite <- E2, E1, N.compare_refl. now apply (IH b).
  - rewrite E1. now apply N.compare_lt_iff in L2 as ->.
  - rewrite <- E2. now apply N.compare_lt_iff in L1 as ->.
  - assert (L : (N_of_ascii x < N_of_ascii z)%N) by (now transitivity (N_of_ascii y)).
    now apply N.compare_lt_iff in L as ->.
Qed.

Lemma string_ltb_trans (a b c : string) :
  String.ltb a b = true -> String.ltb b c = true -> String.ltb a c = true.
Proof.
  unfold String.ltb. intros H1 H2.
  destruct (String.compare a b) eqn:E1; try discriminate.
  destruct (String.compare b c) eqn:E2; try discriminate.
  now rewrite (string_compare_lt_trans a b c E1 E2).
Qed.

Lemma triple_ltb_before (a b : SemanticVersion) :
  triple_ltb (_major a, _minor a, _patch a) (_major b, _minor b, _patch b) = true
  <-> triple_before a b.
Proof.
  unfold triple_ltb, triple_before.
  destruct (Z.eqb_spec (_major a) (_major b)) as [E1|N1]; simpl.
  - destruct (Z.eqb_spec (_minor a) (_minor b)) as [E2|N2]; simpl;
      rewrite Z.ltb_lt; lia.
  - rewrite Z.ltb_lt. lia.
Qed.

Lemma triple_trichotomy (a b : SemanticVersion) :
  triple_before a b \/ same_triple a b \/ triple_before b a.
Proof. unfold triple_before, same_triple. lia. Qed.

Lemma triple_before_not_back (a b : SemanticVersion) :
  triple_before a b ->
  triple_ltb (_major b, _minor b, _patch b) (_major a, _minor a, _patch a) = false.
Proof.
  intro H.
  destruct (triple_ltb (_major b, _minor b, _patch b) (_major a, _minor a, _patch a))
    eqn:E; [|reflexivity].
  apply triple_ltb_before in E. unfold triple_before in *. lia.
Qed.

Lemma lt_triple_before (a b : SemanticVersion) :
  triple_before a b ->
  __lt__ a (Version b) = Ok true /\ __lt__ b (Version a) = Ok false.
Proof.
  intro H. unfold __lt__. cbv zeta.
  rewrite (proj2 (triple_ltb_before a b) H), (triple_before_not_back a b H).
  split; reflexivity.
Qed.

Lemma triple_before_trans (a b c : SemanticVersion) :
  triple_before a b -> triple_before b c -> triple_before a c.
Proof. unfold triple_before. lia. Qed.

Lemma triple_before_same (a b c : SemanticVersion) :
  (triple_before a b -> same_triple b c -> triple_before a c)
  /\ (same_triple a b -> triple_before b c -> triple_before a c).
Proof. unfold triple_before, same_triple. split; lia. Qed.

Lemma same_triple_trans (a b c : SemanticVersion) :
  same_triple a b -> same_triple b c -> same_triple a c.
Proof. unfold same_triple. intuition congruence. Qed.

(** ** The order within one triple, kind by kind *)

Lemma pre_tuple_lt_some (ta tb : string) (sa sb : Z) :
  pre_tuple_lt (Some ta, Some sa) (Some tb, Some sb)
  = Ok (String.ltb ta tb || (String.eqb ta tb && (sa <? sb))).
Proof.
  unfold pre_tuple_lt. cbn [opt_eqb opt_ltb].
  destruct (String.eqb ta tb) eqn:E; cbn [negb andb].
  - apply String.eqb_eq in E. subst tb. rewrite string_ltb_irrefl. cbn [orb].
    destruct (Z.eqb_spec sa sb) as [->|N]; cbn [negb]; [|reflexivity].
    now rewrite Z.ltb_irrefl.
  - now rewrite orb_false_r.
Qed.

Lemma constructed_prerelease_fields (v : SemanticVersion) :
  constructed v = true -> is_prerelease v = true ->
  exists t s, _prerelease_type v = Some t /\ _prerelease v = Some s
              /\ _dev_count v = None.
Proof.
  intros C P. pose proof (constructed_prerelease_no_dev v C P) as D.
  unfold constructed in C. unfold is_prerelease in P. rewrite P in C.
  destruct (_prerelease_type v) as [t|]; [|discriminate P].
  destruct (_prerelease v) as [s|]; [|now rewrite andb_false_r in C].
  now exists t, s.
Qed.

Lemma constructed_dev_fields (v : SemanticVersion) :
  constructed v = true -> is_dev v = true ->
  exists n, _dev_count v = Some n /\ n <> 0 /\ _prerelease_type v = None.
Proof.
  intros C D. pose proof (constructed_dev_no_type v C D) as T.
  unfold is_dev in D. destruct (_dev_count v) as [n|]; [|discriminate D].
  exists n. repeat split; [|exact T].
  simpl in D. apply negb_true_iff, Z.eqb_neq in D. exact D.
Qed.

Lemma lt_prerelease_pair (a b : SemanticVersion) (ta tb : string) (sa sb : Z) :
  same_triple a b -> is_prerelease a = true -> is_prerelease b = true ->
  _prerelease_type a = Some ta -> _prerelease a = Some sa ->
  _prerelease_type b = Some tb -> _prerelease b = Some sb ->
  __lt__ a (Version b)
  = Ok (String.ltb ta tb || (String.eqb ta tb && (sa <? sb))).
Proof.
  intros T Pa Pb Ta Sa Tb Sb. unfold is_prerelease in Pa, Pb.
  same_triple_lt T. rewrite Pa, Pb, Ta, Sa, Tb, Sb. apply pre_tuple_lt_some.
Qed.

Lemma lt_dev_pair (a b : SemanticVersion) (na nb : Z) :
  constructed a = true -> same_triple a b ->
  is_dev a = true -> is_dev b = true ->
  _dev_count a = Some na -> _dev_count b = Some nb ->
  __lt__ a (Version b)
  = if na <? nb then Ok true
    else if nb <? na then Ok false
    else if opt_eqb String.eqb (_githash a) (_githash b) then Ok false
    else Raise TypeError.
Proof.
  intros Ca T Da Db Na Nb.
  pose proof (constructed_dev_no_type a Ca Da) as Ta.
  unfold is_dev in Da, Db.
  same_triple_lt T. rewrite Ta, Da, Db, Na, Nb. cbn [truthy_str opt_ltb bind].
  destruct (na <? nb); [reflexivity|]. now destruct (nb <? na).
Qed.

Lemma qualified_or_final (v : SemanticVersion) :
  is_prerelease v || is_dev v = true \/ is_final v = true.
Proof. unfold is_final. destruct (is_prerelease v), (is_dev v); auto. Qed.

Lemma final_not_qualified (v : SemanticVersion) :
  is_final v = true -> is_prerelease v = false /\ is_dev v = false.
Proof. unfold is_final. now destruct (is_prerelease v), (is_dev v). Qed.

(** For constructed versions [<] answers True exactly when the left one
    precedes the right one. *)
Lemma lt_true_precedes (a b : SemanticVersion) :
  constructed a = true -> constructed b = true ->
  (__lt__ a (Version b) = Ok true <-> precedes a b).
Proof.
  intros Ca Cb. split.
  - intro L. destruct (triple_trichotomy a b) as [H | [T | H]].
    + now left.
    + right. split; [exact T|].
      destruct (is_prerelease a) eqn:Pa.
      * destruct (constructed_prerelease_fields a Ca Pa) as (ta & sa & Ta & Sa & Da).
        destruct (is_prerelease b) eqn:Pb.
        -- destruct (constructed_prerelease_fields b Cb Pb) as (tb & sb & Tb & Sb & Db).
           rewrite (lt_prerelease_pair a b ta tb sa sb T Pa Pb Ta Sa Tb Sb) in L.
           injection L as L. left. repeat split.
           exists ta, sa, tb, sb. repeat split; try assumption.
           apply orb_prop in L. destruct L as [L | L]; [now left|].
           apply andb_prop in L. destruct L as [L1 L2].
           apply String.eqb_eq in L1. apply Z.ltb_lt in L2. now right.
        -- destruct (is_dev b) eqn:Db.
           ++ destruct (prerelease_vs_dev_raises a b Ca Cb T Pa Db) as [R _].
              rewrite R in L. discriminate.
           ++ right. left. split; [reflexivity|]. unfold is_final.
              now rewrite Pb, Db.
      * destruct (is_dev a) eqn:Da.
        -- destruct (constructed_dev_fields a Ca Da) as (na & Na & _ & _).
           destruct (is_dev b) eqn:Db.
           ++ destruct (constructed_dev_fields b Cb Db) as (nb & Nb & _ & _).
              rewrite (lt_dev_pair a b na nb Ca T Da Db Na Nb) in L.
              right. right. repeat split. exists na, nb. repeat split; try assumption.
              destruct (Z.ltb_spec na nb); [assumption|].
              destruct (nb <? na); [discriminate|].
              destruct (opt_eqb String.eqb (_githash a) (_githash b)); discriminate.
           ++ destruct (is_prerelease b) eqn:Pb.
              ** destruct (prerelease_vs_dev_raises b a Cb Ca (same_triple_sym _ _ T)
                            Pb Da) as [_ R].
                 rewrite R in L. discriminate.
              ** right. left. split; [reflexivity|]. unfold is_final.
                 now rewrite Pb, Db.
        -- rewrite (final_not_lt a b T) in L; [discriminate|].
           unfold is_final. now rewrite Pa, Da.
    + destruct (lt_triple_before b a H) as [_ R]. rewrite R in L. discriminate.
  - intros [H | (T & [(Pa & Pb & K) | [(Q & F) | (Da & Db & K)]])].
    + now destruct (lt_triple_before a b H).
    + destruct K as (ta & sa & tb & sb & Ta & Sa & Tb & Sb & K).
      rewrite (lt_prerelease_pair a b ta tb sa sb T Pa Pb Ta Sa Tb Sb). f_equal.
      destruct K as [K | (-> & K)]; [now rewrite K|].
      rewrite String.eqb_refl. apply Z.ltb_lt in K. rewrite K. apply orb_true_r.
    + apply (qualified_lt_final b a (same_triple_sym _ _ T) F Q).
    + destruct K as (na & nb & Na & Nb & K).
      rewrite (lt_dev_pair a b na nb Ca T Da Db Na Nb).
      apply Z.ltb_lt in K. now rewrite K.
Qed.

Lemma prerelease_not_dev (v : SemanticVersion) :
  constructed v = true -> is_prerelease v = true -> is_dev v = true -> False.
Proof.
  intros C P D. unfold is_dev in D.
  rewrite (constructed_prerelease_no_dev v C P) in D. discriminate.
Qed.

Lemma precedes_trans (a b c : SemanticVersion) :
  constructed b = true ->
  precedes a b -> precedes b c -> precedes a c.
Proof.
  intros Cb [H1 | (T1 & K1)] [H2 | (T2 & K2)].
  - left. now apply (triple_before_trans a b c).
  - left. now apply (proj1 (triple_before_same a b c)).
  - left. now apply (proj2 (triple_before_same a b c)).
  - right. split; [now apply (same_triple_trans a b c)|].
    destruct K1 as [(Pa & Pb & K1) | [(Qa & Fb) | (Da & Db & K1)]].
    + destruct K2 as [(_ & Pc & K2) | [(_ & Fc) | (Db & _ & _)]].
      * left. repeat split; try assumption.
        destruct K1 as (ta & sa & tb & sb & Ta & Sa & Tb & Sb & K1).
        destruct K2 as (tb' & sb' & tc & sc & Tb' & Sb' & Tc & Sc & K2).
        rewrite Tb in Tb'. injection Tb' as <-.
        rewrite Sb in Sb'. injection Sb' as <-.
        exists ta, sa, tc, sc. repeat split; try assumption.
        destruct K1 as [K1 | (-> & K1)], K2 as [K2 | (-> & K2)].
        -- left. now apply (string_ltb_trans ta tb tc).
        -- now left.
        -- now left.
        -- right. split; [reflexivity | lia].
      * right. left. split; [now rewrite Pa | assumption].
      * destruct (prerelease_not_dev b Cb Pb Db).
    + destruct (final_not_qualified b Fb) as [Pb Db].
      destruct K2 as [(Pb' & _) | [(Qb & _) | (Db' & _)]]; try congruence.
      rewrite Pb, Db in Qb. discriminate.
    + destruct K2 as [(Pb & _) | [(_ & Fc) | (_ & Dc & K2)]].
      * destruct (prerelease_not_dev b Cb Pb Db).
      * right. left. split; [rewrite Da; apply orb_true_r | assumption].
      * right. right. repeat split; try assumption.
        destruct K1 as (na & nb & Na & Nb & K1).
        destruct K2 as (nb' & nc & Nb' & Nc & K2).
        rewrite Nb in Nb'. injection Nb' as <-.
        exists na, nc. repeat split; try assumption. lia.
Qed.

Lemma precedes_back (a b : SemanticVersion) :
  constructed a = true -> constructed b = true ->
  precedes a b -> __lt__ b (Version a) = Ok false.
Proof.
  intros Ca Cb [H | (T & [(Pa & Pb & K) | [(Q & F) | (Da & Db & K)]])].
  - now destruct (lt_triple_before a b H).
  - destruct K as (ta & sa & tb & sb & Ta & Sa & Tb & Sb & K).
    rewrite (lt_prerelease_pair b a tb ta sb sa (same_triple_sym _ _ T)
               Pb Pa Tb Sb Ta Sa). f_equal.
    destruct K as [K | (-> & K)].
    + rewrite (string_ltb_asym ta tb K), String.eqb_sym, (string_ltb_neq ta tb K).
      reflexivity.
    + rewrite string_ltb_irrefl, String.eqb_refl. cbn [orb andb].
      apply Z.ltb_ge. lia.
  - apply final_not_lt; [now apply same_triple_sym | exact F].
  - destruct K as (na & nb & Na & Nb & K).
    rewrite (lt_dev_pair b a nb na Cb (same_triple_sym _ _ T) Db Da Nb Na).
    replace (nb <? na) with false by (symmetry; apply Z.ltb_ge; lia).
    now replace (na <? nb) with true by (symmetry; apply Z.ltb_lt; lia).
Qed.

(** ** The order as a whole *)

Lemma lt_irrefl (v : SemanticVersion) : __lt__ v (Version v) = Ok false.
Proof.
  unfold __lt__. cbv zeta. rewrite triple_ltb_irrefl.
  destruct (truthy_str (_prerelease_type v)).
  - unfold pre_tuple_lt.
    rewrite (proj2 (opt_eqb_string_eq _ _) eq_refl).
    now rewrite (proj2 (opt_eqb_Z_eq _ _) eq_refl).
  - destruct (_dev_count v) as [n|]; [|reflexivity].
    destruct (truthy_int (Some n)); [|reflexivity].
    cbn [opt_ltb bind]. rewrite Z.ltb_irrefl.
    now rewrite (proj2 (opt_eqb_string_eq _ _) eq_refl).
Qed.

(** X1.  Comparing a version with itself never raises, whatever its
    attributes: it is not [<] itself and not [>] itself, and it is [<=],
    [>=] and [==] itself. *)
Theorem self_comparison (v : SemanticVersion) :
  __lt__ v (Version v) = Ok false /\ __gt__ v (Version v) = Ok false
  /\ __le__ v (Version v) = Ok true /\ __ge__ v (Version v) = Ok true
  /\ __eq__ v (Version v) = Ok true /\ __ne__ v (Version v) = Ok false.
Proof.
  assert (E : dict_eqb v v = true) by now apply dict_eqb_eq.
  unfold __gt__, __ge__, __le__, __ne__, __eq__.
  rewrite lt_irrefl, E. repeat split; reflexivity.
Qed.

(** X2.  On constructed versions [<] is asymmetric and the other operators
    agree with it: when a < b, then b < a is False, b > a, b >= a and
    a <= b are True, and a > b, a >= b are False; none of them raises. *)
Theorem lt_asymmetric (a b : SemanticVersion)
    (Ca : constructed a = true) (Cb : constructed b = true)
    (L : __lt__ a (Version b) = Ok true) :
  __lt__ b (Version a) = Ok false
  /\ __gt__ b (Version a) = Ok true /\ __ge__ b (Version a) = Ok true
  /\ __le__ a (Version b) = Ok true
  /\ __gt__ a (Version b) = Ok false /\ __ge__ a (Version b) = Ok false.
Proof.
  pose proof (precedes_back a b Ca Cb (proj1 (lt_true_precedes a b Ca Cb) L)) as B.
  assert (N : a <> b) by (intros <-; rewrite lt_irrefl in L; discriminate).
  assert (N' : b <> a) by (intros E; now apply N).
  unfold __gt__, __ge__, __le__, __eq__.
  rewrite L, B, (dict_eqb_neq a b N), (dict_eqb_neq b a N').
  repeat split; reflexivity.
Qed.

Lemma lt_asymmetric_witness :
  __gt__ (Build_version 1 3 0 None None None None)
         (Version (Build_version 1 3 0 (Some "rc") (Some 1) None None)) = Ok true.
Proof.
  apply (lt_asymmetric
           (Build_version 1 3 0 (Some "rc") (Some 1) None None)
           (Build_version 1 3 0 None None None None)
           eq_refl eq_refl eq_refl).
Defined.

(** X3.  On constructed versions [<] is transitive: from a < b and b < c
    follows a < c, and in particular that comparison does not raise. *)
Theorem lt_transitive (a b c : SemanticVersion)
    (Ca : constructed a = true) (Cb : constructed b = true)
    (Cc : constructed c = true)
    (Lab : __lt__ a (Version b) = Ok true)
    (Lbc : __lt__ b (Version c) = Ok true) :
  __lt__ a (Version c) = Ok true.
Proof.
  apply (lt_true_precedes a c Ca Cc).
  apply (precedes_trans a b c Cb).
  - now apply (lt_true_precedes a b Ca Cb).
  - now apply (lt_true_precedes b c Cb Cc).
Qed.

Lemma lt_transitive_witness :
  __lt__ (Build_version 1 3 0 (Some "a") (Some 2) None None)
         (Version (Build_version 1 3 0 None None None None)) = Ok true.
Proof.
  apply (lt_transitive
           (Build_version 1 3 0 (Some "a") (Some 2) None None)
           (Build_version 1 3 0 (Some "rc") (Some 1) None None)
           (Build_version 1 3 0 None None None None)
           eq_refl eq_refl eq_refl eq_refl eq_refl).
Defined.

(** X4.  When the triples of two versions differ, the qualifiers play no
    part: [<] never raises and is True in exactly one direction, the one
    given by the triples. *)
Theorem different_triples_are_ordered (a b : SemanticVersion)
    (N : ~ same_triple a b) :
  (triple_before a b
   /\ __lt__ a (Version b) = Ok true /\ __lt__ b (Version a) = Ok false)
  \/ (triple_before b a
      /\ __lt__ a (Version b) = Ok false /\ __lt__ b (Version a) = Ok true).
Proof.
  destruct (triple_trichotomy a b) as [H | [T | H]].
  - left. split; [exact H | now apply lt_triple_before].
  - contradiction.
  - right. destruct (lt_triple_before b a H) as [L1 L2]. now repeat split.
Qed.

Lemma different_triples_are_ordered_witness :
  (triple_before (Build_version 1 2 9 None None (Some 4) (Some "a"))
                 (Build_version 1 3 0 (Some "a") (Some 1) None None)
   /\ __lt__ (Build_version 1 2 9 None None (Some 4) (Some "a"))
             (Version (Build_version 1 3 0 (Some "a") (Some 1) None None)) = Ok true
   /\ __lt__ (Build_version 1 3 0 (Some "a") (Some 1) None None)
             (Version (Build_version 1 2 9 None None (Some 4) (Some "a"))) = Ok false)
  \/ (triple_before (Build_version 1 3 0 (Some "a") (Some 1) None None)
                    (Build_version 1 2 9 None None (Some 4) (Some "a"))
      /\ __lt__ (Build_version 1 2 9 None None (Some 4) (Some "a"))
                (Version (Build_version 1 3 0 (Some "a") (Some 1) None None)) = Ok false
      /\ __lt__ (Build_version 1 3 0 (Some "a") (Some 1) None None)
                (Version (Build_version 1 2 9 None None (Some 4) (Some "a"))) = Ok true).
Proof.
  apply (different_triples_are_ordered
           (Build_version 1 2 9 None None (Some 4) (Some "a"))
           (Build_version 1 3 0 (Some "a") (Some 1) None None)).
  unfold same_triple. simpl. lia.
Defined.

(** X5.  Between constructed versions [<] raises in no other case than the
    ones of one triple where the order is left undefined: a prerelease
    against a dev build, in either position, and two dev builds with the
    same count and different hashes.  The exception is always TypeError. *)
Theorem lt_raises_exactly (a b : SemanticVersion) (e : exn)
    (Ca : constructed a = true) (Cb : constructed b = true) :
  __lt__ a (Version b) = Raise e
  <-> (e = TypeError /\ same_triple a b
       /\ ((is_prerelease a = true /\ is_dev b = true)
           \/ (is_dev a = true /\ is_prerelease b = true)
           \/ (is_dev a = true /\ is_dev b = true
               /\ _dev_count a = _dev_count b /\ _githash a <> _githash b))).
Proof.
  split.
  - intro R. destruct (triple_trichotomy a b) as [H | [T | H]].
    + destruct (lt_triple_before a b H) as [L _]. rewrite L in R. discriminate.
    + destruct (is_prerelease a) eqn:Pa.
      * destruct (constructed_prerelease_fields a Ca Pa) as (ta & sa & Ta & Sa & _).
        destruct (is_prerelease b) eqn:Pb.
        -- destruct (constructed_prerelease_fields b Cb Pb) as (tb & sb & Tb & Sb & _).
           rewrite (lt_prerelease_pair a b ta tb sa sb T Pa Pb Ta Sa Tb Sb) in R.
           discriminate.
        -- destruct (is_dev b) eqn:Db.
           ++ destruct (prerelease_vs_dev_raises a b Ca Cb T Pa Db) as [R' _].
              rewrite R' in R. injection R as <-.
              split; [reflexivity | split; [exact T | auto]].
           ++ rewrite (qualified_lt_final b a (same_triple_sym _ _ T)) in R;
                [discriminate | unfold is_final; now rewrite Pb, Db | now rewrite Pa].
      * destruct (is_dev a) eqn:Da.
        -- destruct (constructed_dev_fields a Ca Da) as (na & Na & _ & _).
           destruct (is_dev b) eqn:Db.
           ++ destruct (constructed_dev_fields b Cb Db) as (nb & Nb & _ & _).
              rewrite (lt_dev_pair a b na nb Ca T Da Db Na Nb) in R.
              destruct (Z.ltb_spec na nb); [discriminate|].
              destruct (Z.ltb_spec nb na); [discriminate|].
              destruct (opt_eqb String.eqb (_githash a) (_githash b)) eqn:E;
                [discriminate|].
              injection R as <-. split; [reflexivity | split; [exact T|]].
              right. right. split; [reflexivity | split; [reflexivity | split]].
              ** rewrite Na, Nb. f_equal. lia.
              ** intro X. apply opt_eqb_string_eq in X. congruence.
           ++ destruct (is_prerelease b) eqn:Pb.
              ** destruct (prerelease_vs_dev_raises b a Cb Ca (same_triple_sym _ _ T)
                            Pb Da) as [_ R'].
                 rewrite R' in R. injection R as <-.
              split; [reflexivity | split; [exact T | auto]].
              ** rewrite (qualified_lt_final b a (same_triple_sym _ _ T)) in R;
                   [discriminate | unfold is_final; now rewrite Pb, Db
                   | rewrite Da; apply orb_true_r].
        -- rewrite (final_not_lt a b T) in R; [discriminate|].
           unfold is_final. now rewrite Pa, Da.
    + destruct (lt_triple_before b a H) as [_ L]. rewrite L in R. discriminate.
  - intros (-> & T & [(Pa & Db) | [(Da & Pb) | (Da & Db & E & N)]]).
    + now destruct (prerelease_vs_dev_raises a b Ca Cb T Pa Db).
    + now destruct (prerelease_vs_dev_raises b a Cb Ca (same_triple_sym _ _ T) Pb Da).
    + rewrite (dev_vs_dev_same_count a b Ca Cb T Da Db E).
      destruct (opt_eqb String.eqb (_githash a) (_githash b)) eqn:X; [|reflexivity].
      apply opt_eqb_string_eq in X. contradiction.
Qed.

Lemma lt_raises_exactly_witness :
  TypeError = TypeError
  /\ same_triple (Build_version 1 0 0 None None (Some 2) (Some "a"))
                 (Build_version 1 0 0 (Some "b") (Some 1) None None)
  /\ ((is_prerelease (Build_version 1 0 0 None None (Some 2) (Some "a")) = true
       /\ is_dev (Build_version 1 0 0 (Some "b") (Some 1) None None) = true)
      \/ (is_dev (Build_version 1 0 0 None None (Some 2) (Some "a")) = true
          /\ is_prerelease (Build_version 1 0 0 (Some "b") (Some 1) None None) = true)
      \/ (is_dev (Build_version 1 0 0 None None (Some 2) (Some "a")) = true
          /\ is_dev (Build_version 1 0 0 (Some "b") (Some 1) None None) = true
          /\ _dev_count (Build_version 1 0 0 None None (Some 2) (Some "a"))
             = _dev_count (Build_version 1 0 0 (Some "b") (Some 1) None None)
          /\ _githash (Build_version 1 0 0 None None (Some 2) (Some "a"))
             <> _githash (Build_version 1 0 0 (Some "b") (Some 1) None None))).
Proof.
  apply (proj1 (lt_raises_exactly
                  (Build_version 1 0 0 None None (Some 2) (Some "a"))
                  (Build_version 1 0 0 (Some "b") (Some 1) None None)
                  TypeError eq_refl eq_refl)).
  reflexivity.
Defined.

(** X6.  [>] is not the converse of [<].  Two versions of one triple that
    are both final in the order (no prerelease type, no dev count other than
    0) but differ in some attribute are each [>] the other and neither is
    [<=] the other, although neither is [<] the other: [>] is computed as
    the negation of [== or <]. *)
Theorem gt_holds_both_ways (a b : SemanticVersion)
    (T : same_triple a b)
    (Fa : is_final a = true) (Fb : is_final b = true) (N : a <> b) :
  (__gt__ a (Version b) = Ok true /\ __gt__ b (Version a) = Ok true)
  /\ (__le__ a (Version b) = Ok false /\ __le__ b (Version a) = Ok false)
  /\ (__lt__ a (Version b) = Ok false /\ __lt__ b (Version a) = Ok false).
Proof.
  assert (N' : b <> a) by (intro E; now apply N).
  pose proof (final_not_lt a b T Fa) as L1.
  pose proof (final_not_lt b a (same_triple_sym _ _ T) Fb) as L2.
  unfold __gt__, __le__, __eq__.
  rewrite L1, L2, (dict_eqb_neq a b N), (dict_eqb_neq b a N').
  repeat split; reflexivity.
Qed.

Lemma gt_holds_both_ways_witness :
  __gt__ (Build_version 1 0 0 None None None None)
         (Version (Build_version 1 0 0 None None (Some 0) None)) = Ok true
  /\ __gt__ (Build_version 1 0 0 None None (Some 0) None)
            (Version (Build_version 1 0 0 None None None None)) = Ok true.
Proof.
  apply (proj1 (gt_holds_both_ways
                  (Build_version 1 0 0 None None None None)
                  (Build_version 1 0 0 None None (Some 0) None)
                  (conj eq_refl (conj eq_refl eq_refl)) eq_refl eq_refl
                  ltac:(discriminate))).
Defined.

(** ** Deriving versions *)

Lemma bare_before (v : SemanticVersion) (major minor patch : Z) :
  triple_before v (bare major minor patch) ->
  __lt__ v (Version (bare major minor patch)) = Ok true
  /\ __lt__ (bare major minor patch) (Version v) = Ok false.
Proof. apply lt_triple_before. Qed.

Lemma increment_cases (v : SemanticVersion) (minor major : bool) :
  constructed v = true ->
  (major = true
   /\ increment v minor major = Ok (bare (_major v + 1) 0 0))
  \/ (major = false /\ minor = true
      /\ increment v minor major = Ok (bare (_major v) (_minor v + 1) 0))
  \/ (major = false /\ minor = false /\ is_prerelease v = false
      /\ increment v minor major = Ok (bare (_major v) (_minor v) (_patch v + 1)))
  \/ (major = false /\ minor = false /\ is_prerelease v = true
      /\ exists t s, _prerelease_type v = Some t /\ _prerelease v = Some s
                     /\ increment v minor major
                        = Ok (Build_version (_major v) (_minor v) (_patch v)
                                (Some t) (Some (s + 1)) None None)).
Proof.
  intro C. unfold increment. destruct (is_prerelease v) eqn:P.
  - destruct (constructed_prerelease_fields v C P) as (t & s & T & S & _).
    unfold is_prerelease in P. rewrite P, T, S. cbn [plus_one bind].
    destruct major; [left; now destruct minor|].
    destruct minor; [right; left; now repeat split|].
    right. right. right. repeat split. exists t, s. repeat split.
    rewrite T in P. unfold __init__. rewrite P. cbn [is_none negb andb].
    destruct (Z.eqb_spec (s + 1) 0) as [E|N]; cbn [truthy_int].
    + rewrite E. reflexivity.
    + apply Z.eqb_neq in N. rewrite N. reflexivity.
  - unfold is_prerelease in P. rewrite P. cbn [bind].
    destruct major; [left; now destruct minor|].
    destruct minor; [right; left; now repeat split|].
    right. right. left. now repeat split.
Qed.

(** X7.  [increment] of a constructed version never fails, whatever the
    flags, and returns a constructed version that comes strictly later in
    the order: the version is [<] its increment and the increment is not
    [<] it.  The increment never carries a dev count or a hash. *)
Theorem increment_is_later (v : SemanticVersion) (minor major : bool)
    (C : constructed v = true) :
  exists w, increment v minor major = Ok w
            /\ constructed w = true
            /\ __lt__ v (Version w) = Ok true /\ __lt__ w (Version v) = Ok false
            /\ _dev_count w = None /\ _githash w = None.
Proof.
  destruct (increment_cases v minor major C)
    as [(_ & E) | [(_ & _ & E) | [(_ & _ & _ & E) | (_ & _ & P & t & s & T & S & E)]]];
    rewrite E; eexists; (split; [reflexivity|]).
  - split; [reflexivity|].
    destruct (bare_before v (_major v + 1) 0 0) as [L1 L2];
      [unfold triple_before, bare; simpl; lia | now repeat split].
  - split; [reflexivity|].
    destruct (bare_before v (_major v) (_minor v + 1) 0) as [L1 L2];
      [unfold triple_before, bare; simpl; lia | now repeat split].
  - split; [reflexivity|].
    destruct (bare_before v (_major v) (_minor v) (_patch v + 1)) as [L1 L2];
      [unfold triple_before, bare; simpl; lia | now repeat split].
  - set (w := Build_version (_major v) (_minor v) (_patch v) (Some t)
                (Some (s + 1)) None None).
    assert (Pw : is_prerelease w = true)
      by (unfold is_prerelease in *; rewrite T in P; exact P).
    assert (Tvw : same_triple v w) by (repeat split).
    split; [unfold constructed; cbn; unfold is_prerelease in Pw; cbn in Pw;
            now rewrite Pw|].
    rewrite (lt_prerelease_pair v w t t s (s + 1) Tvw P Pw T S eq_refl eq_refl).
    rewrite (lt_prerelease_pair w v t t (s + 1) s (same_triple_sym _ _ Tvw)
               Pw P eq_refl eq_refl T S).
    rewrite string_ltb_irrefl, String.eqb_refl. cbn [orb andb].
    replace (s <? s + 1) with true by (symmetry; apply Z.ltb_lt; lia).
    replace (s + 1 <? s) with false by (symmetry; apply Z.ltb_ge; lia).
    now repeat split.
Qed.

Lemma increment_is_later_witness :
  exists w, increment (Build_version 1 2 3 (Some "b") (Some 0) None None) false false
            = Ok w
            /\ constructed w = true
            /\ __lt__ (Build_version 1 2 3 (Some "b") (Some 0) None None) (Version w)
               = Ok true
            /\ __lt__ w (Version (Build_version 1 2 3 (Some "b") (Some 0) None None))
               = Ok false
            /\ _dev_count w = None /\ _githash w = None.
Proof.
  apply (increment_is_later (Build_version 1 2 3 (Some "b") (Some 0) None None)
           false false eq_refl).
Defined.

Lemma decrement_cases (v : SemanticVersion) :
  (_patch v <> 0
   /\ decrement v = Ok (bare (_major v) (_minor v) (_patch v - 1)))
  \/ (_patch v = 0 /\ _minor v <> 0
      /\ decrement v = Ok (bare (_major v) (_minor v - 1) 9999))
  \/ (_patch v = 0 /\ _minor v = 0 /\ _major v <> 0
      /\ decrement v = Ok (bare (_major v - 1) 9999 9999))
  \/ (_patch v = 0 /\ _minor v = 0 /\ _major v = 0
      /\ decrement v = Ok (bare 0 9999 9999)).
Proof.
  unfold decrement.
  destruct (Z.eqb_spec (_patch v) 0) as [Ep|Np]; [|left; now split].
  destruct (Z.eqb_spec (_minor v) 0) as [Em|Nm]; [|right; left; now repeat split].
  destruct (Z.eqb_spec (_major v) 0) as [EM|NM];
    [right; right; right | right; right; left]; now repeat split.
Qed.

(** X8.  [decrement] gives a version that comes strictly earlier in the
    order, with one exception: at the triple 0.0.0 nothing can be borrowed,
    the result is 0.9999.9999 and comes later than the version itself. *)
Theorem decrement_is_earlier_except_at_zero (v : SemanticVersion) :
  exists d, decrement v = Ok d
    /\ ((_major v, _minor v, _patch v) <> (0, 0, 0) ->
        __lt__ d (Version v) = Ok true /\ __lt__ v (Version d) = Ok false)
    /\ ((_major v, _minor v, _patch v) = (0, 0, 0) ->
        d = bare 0 9999 9999
        /\ __lt__ v (Version d) = Ok true /\ __lt__ d (Version v) = Ok false).
Proof.
  destruct (decrement_cases v)
    as [(Np & E) | [(Ep & Nm & E) | [(Ep & Em & NM & E) | (Ep & Em & EM & E)]]];
    rewrite E; eexists; (split; [reflexivity|]); split.
  - intros _. apply lt_triple_before. unfold triple_before, bare. simpl. lia.
  - intros [= _ _ X]. contradiction.
  - intros _. apply lt_triple_before. unfold triple_before, bare. simpl. lia.
  - intros [= _ X _]. contradiction.
  - intros _. apply lt_triple_before. unfold triple_before, bare. simpl. lia.
  - intros [= X _ _]. contradiction.
  - intros N. elim N. now rewrite Ep, Em, EM.
  - intros _. split; [reflexivity|].
    apply lt_triple_before. unfold triple_before, bare. simpl. lia.
Qed.

Lemma decrement_is_earlier_except_at_zero_witness :
  exists d, decrement (Build_version 0 0 0 (Some "a") (Some 1) None None) = Ok d
    /\ d = bare 0 9999 9999
    /\ __lt__ (Build_version 0 0 0 (Some "a") (Some 1) None None) (Version d) = Ok true.
Proof.
  destruct (decrement_is_earlier_except_at_zero
              (Build_version 0 0 0 (Some "a") (Some 1) None None))
    as (d & E & _ & Z).
  exists d. split; [exact E|].
  destruct (Z eq_refl) as (Ed & L & _). now split.
Defined.

(** X9.  Decrementing the plain increment of a version that is not a
    prerelease gives back the bare release of its triple, provided the
    patch level is not negative.  For a prerelease the plain increment
    keeps the triple, so decrementing it is decrementing the version. *)
Theorem decrement_after_increment (v : SemanticVersion)
    (C : constructed v = true) :
  (is_prerelease v = false -> 0 <= _patch v ->
   exists w, increment v false false = Ok w /\ decrement w = to_release v)
  /\ (is_prerelease v = true ->
      exists w, increment v false false = Ok w /\ decrement w = decrement v).
Proof.
  destruct (increment_cases v false false C)
    as [(X & _) | [(_ & X & _) | [(_ & _ & P & E) | (_ & _ & P & t & s & T & S & E)]]];
    try discriminate X; rewrite E; split; intro P'; try congruence.
  - intro Hp. eexists. split; [reflexivity|].
    unfold decrement, to_release, bare. cbn [_major _minor _patch].
    replace (_patch v + 1 =? 0) with false by (symmetry; apply Z.eqb_neq; lia).
    cbn [negb]. now replace (_patch v + 1 - 1) with (_patch v) by lia.
  - eexists. split; reflexivity.
Qed.

Lemma decrement_after_increment_witness :
  exists w, increment (Build_version 1 2 0 None None (Some 4) (Some "83bef74"))
              false false = Ok w
            /\ decrement w
               = to_release (Build_version 1 2 0 None None (Some 4) (Some "83bef74")).
Proof.
  apply (proj1 (decrement_after_increment
                  (Build_version 1 2 0 None None (Some 4) (Some "83bef74")) eq_refl));
    [reflexivity | simpl; lia].
Defined.

(** X10.  The plain increment undoes [decrement] exactly when the patch
    level is not 0.  At patch level 0 the decrement rolls over to 9999 and
    the increment then gives patch level 10000 of the earlier minor (or
    major) version, not the release started from. *)
Theorem increment_after_decrement (v : SemanticVersion) :
  exists d w, decrement v = Ok d /\ increment d false false = Ok w
    /\ (_patch v <> 0 -> Ok w = to_release v)
    /\ (_patch v = 0 -> _patch w = 10000 /\ Ok w <> to_release v).
Proof.
  destruct (decrement_cases v)
    as [(Np & E) | [(Ep & Nm & E) | [(Ep & Em & NM & E) | (Ep & Em & EM & E)]]];
    rewrite E; eexists; eexists; (split; [reflexivity|]);
    (split; [reflexivity|]); unfold to_release, bare; cbn [_major _minor _patch];
    rewrite init_plain; split; intro H; try contradiction.
  - now replace (_patch v - 1 + 1) with (_patch v) by lia.
  - split; [reflexivity|]. rewrite Ep. discriminate.
  - split; [reflexivity|]. rewrite Ep. discriminate.
  - split; [reflexivity|]. rewrite Ep. discriminate.
Qed.

Lemma increment_after_decrement_witness :
  exists d w, decrement (Build_version 1 2 0 None None None None) = Ok d
    /\ increment d false false = Ok w
    /\ _patch w = 10000
    /\ Ok w <> to_release (Build_version 1 2 0 None None None None).
Proof.
  destruct (increment_after_decrement (Build_version 1 2 0 None None None None))
    as (d & w & D & I & _ & Z).
  exists d, w. split; [exact D|]. split; [exact I|]. exact (Z eq_refl).
Defined.

(** X11.  [to_dev] never fails and drops the prerelease attributes.  Dev
    snapshots of one version with non-zero counts are ordered by their
    counts, whatever their hashes, and each of them comes before the release
    that [to_release] gives. *)
Theorem dev_snapshots_are_ordered (v : SemanticVersion) (n m : Z)
    (h h' : option string) (Hn : n <> 0) (Hm : m <> 0) (L : n < m) :
  exists d d' r,
    to_dev v (Some n) h = Ok d /\ to_dev v (Some m) h' = Ok d'
    /\ to_release v = Ok r
    /\ _prerelease_type d = None /\ _prerelease d = None
    /\ __lt__ d (Version d') = Ok true /\ __lt__ d' (Version d) = Ok false
    /\ __lt__ d (Version r) = Ok true /\ __lt__ d' (Version r) = Ok true
    /\ __lt__ r (Version d) = Ok false.
Proof.
  unfold to_dev, to_release. cbn [__init__ truthy_str is_none negb andb].
  set (d := Build_version (_major v) (_minor v) (_patch v) None None (Some n) h).
  set (d' := Build_version (_major v) (_minor v) (_patch v) None None (Some m) h').
  set (r := Build_version (_major v) (_minor v) (_patch v) None None None None).
  exists d, d', r. do 5 (split; [reflexivity|]).
  assert (Dd : is_dev d = true)
    by (unfold is_dev; cbn; now apply negb_true_iff, Z.eqb_neq).
  assert (Dd' : is_dev d' = true)
    by (unfold is_dev; cbn; now apply negb_true_iff, Z.eqb_neq).
  assert (T : same_triple d d') by (repeat split).
  assert (Tr : same_triple r d) by (repeat split).
  assert (Tr' : same_triple r d') by (repeat split).
  rewrite (lt_dev_pair d d' n m eq_refl T Dd Dd' eq_refl eq_refl).
  rewrite (lt_dev_pair d' d m n eq_refl (same_triple_sym _ _ T) Dd' Dd eq_refl eq_refl).
  replace (n <? m) with true by (symmetry; apply Z.ltb_lt; lia).
  replace (m <? n) with false by (symmetry; apply Z.ltb_ge; lia).
  do 2 (split; [reflexivity|]).
  split; [apply (qualified_lt_final r d Tr eq_refl); rewrite Dd; apply orb_true_r|].
  split; [apply (qualified_lt_final r d' Tr' eq_refl); rewrite Dd'; apply orb_true_r|].
  now apply final_not_lt.
Qed.

Lemma dev_snapshots_are_ordered_witness :
  exists d d' r,
    to_dev (Build_version 1 3 0 (Some "rc") (Some 1) None None) (Some 2) (Some "a")
    = Ok d
    /\ to_dev (Build_version 1 3 0 (Some "rc") (Some 1) None None) (Some 5) (Some "b")
       = Ok d'
    /\ to_release (Build_version 1 3 0 (Some "rc") (Some 1) None None) = Ok r
    /\ _prerelease_type d = None /\ _prerelease d = None
    /\ __lt__ d (Version d') = Ok true /\ __lt__ d' (Version d) = Ok false
    /\ __lt__ d (Version r) = Ok true /\ __lt__ d' (Version r) = Ok true
    /\ __lt__ r (Version d) = Ok false.
Proof.
  apply (dev_snapshots_are_ordered
           (Build_version 1 3 0 (Some "rc") (Some 1) None None) 2 5
           (Some "a") (Some "b")); lia.
Defined.

(** ** More on parsing *)

(** X12.  Parsing the brief string of any version gives the bare release of
    its triple, the version that [to_release] returns. *)
Theorem brief_string_parses_to_release (v : SemanticVersion) :
  from_pip_string (brief_string v) = to_release v.
Proof.
  rewrite (from_pip_string_brief v _ [] (split_dot_brief_only v)).
  reflexivity.
Qed.

(** X13.  A version text of one or two integer components is padded with
    zeros: "M" parses to the final release M.0.0 and "M.m" to M.m.0. *)
Theorem short_version_is_padded (c0 c1 : string) (major minor : Z)
    (D0 : no_dot c0 = true) (D1 : no_dot c1 = true)
    (E0 : int_of_text c0 = Some major) (E1 : int_of_text c1 = Some minor) :
  from_pip_string c0 = Ok (bare major 0 0)
  /\ from_pip_string (c0 ++ "." ++ c1) = Ok (bare major minor 0).
Proof.
  split; unfold from_pip_string.
  - rewrite (split_dot_no_dot c0 D0).
    cbn [map List.length Nat.ltb Nat.leb Nat.sub repeat app item nth_error bind].
    unfold _is_int, int. rewrite E0. reflexivity.
  - rewrite (split_dot_app c0 c1 D0), (split_dot_no_dot c1 D1).
    cbn [map List.length Nat.ltb Nat.leb Nat.sub repeat app item nth_error bind].
    unfold _is_int, int. rewrite E0, E1. reflexivity.
Qed.

Lemma short_version_is_padded_witness :
  from_pip_string "7" = Ok (bare 7 0 0)
  /\ from_pip_string ("7" ++ "." ++ "12") = Ok (bare 7 12 0).
Proof.
  apply (short_version_is_padded "7" "12" 7 12); reflexivity.
Defined.

Lemma split_dot_cases (s : string) :
  (exists c0, split_dot s = [c0])
  \/ (exists c0 c1, split_dot s = [c0; c1])
  \/ (exists c0 c1 c2 rest, split_dot s = c0 :: c1 :: c2 :: rest).
Proof.
  destruct (split_dot s) as [|c0 [|c1 [|c2 rest]]] eqn:E.
  - destruct s as [|c s]; simpl in E; [discriminate|].
    destruct (Ascii.eqb c "."); [discriminate|].
    destruct (split_dot s); discriminate.
  - left. now exists c0.
  - right. left. now exists c0, c1.
  - right. right. now exists c0, c1, c2, rest.
Qed.

Lemma from_pip_string_not_integer (s c0 : string) (rest : list string) :
  split_dot s = c0 :: rest ->
  (int_of_text c0 = None -> from_pip_string s = Raise ValueError)
  /\ (forall c1 more major, rest = c1 :: more ->
      int_of_text c0 = Some major -> int_of_text c1 = None ->
      from_pip_string s = Raise ValueError).
Proof.
  intro S.
  split.
  - intro E. unfold from_pip_string. rewrite S.
    destruct rest as [|c1 [|c2 more]];
      cbn [map List.length Nat.ltb Nat.leb Nat.sub repeat app item nth_error bind];
      unfold int; rewrite E; reflexivity.
  - intros c1 more major -> E0 E1. unfold from_pip_string. rewrite S.
    destruct more as [|c2 more];
      cbn [map List.length Nat.ltb Nat.leb Nat.sub repeat app item nth_error bind];
      unfold int; rewrite E0; cbn [bind]; rewrite E1; reflexivity.
Qed.

(** X14.  A version text whose first component is ASCII text that is not
    an integer literal, the empty text among them, is refused with
    ValueError, and so is one whose second component is such a text. *)
Theorem non_numeric_release_raises (s c0 : string) (rest : list string)
    (S : split_dot s = c0 :: rest) :
  (all_chars is_ascii c0 = true -> int_of_text c0 = None ->
   from_pip_string s = Raise ValueError)
  /\ (forall c1 more major, rest = c1 :: more ->
      all_chars is_ascii c1 = true ->
      int_of_text c0 = Some major -> int_of_text c1 = None ->
      from_pip_string s = Raise ValueError).
Proof.
  split.
  - intros _ E. unfold from_pip_string. rewrite S.
    destruct rest as [|c1 [|c2 more]];
      cbn [map List.length Nat.ltb Nat.leb Nat.sub repeat app item nth_error bind];
      unfold int; rewrite E; reflexivity.
  - intros c1 more major -> _ E0 E1. unfold from_pip_string. rewrite S.
    destruct more as [|c2 more];
      cbn [map List.length Nat.ltb Nat.leb Nat.sub repeat app item nth_error bind];
      unfold int; rewrite E0; cbn [bind]; rewrite E1; reflexivity.
Qed.

Lemma non_numeric_release_raises_witness :
  from_pip_string "" = Raise ValueError
  /\ from_pip_string "1.x.3" = Raise ValueError.
Proof.
  split.
  - apply (proj1 (non_numeric_release_raises "" "" [] eq_refl)); reflexivity.
  - apply (proj2 (non_numeric_release_raises "1.x.3" "1" ["x"; "3"] eq_refl)
             "x" ["3"] 1); reflexivity.
Defined.

Lemma parse_remainder_empty_segment (rest : list value) :
  parse_remainder (VStr "" :: rest) = Raise IndexError.
Proof. reflexivity. Qed.

(** X15.  An empty component where a qualifier is expected, as after a
    trailing dot in "1.2.3.", makes [from_pip_string] raise IndexError, not
    ValueError: the first character of the component is read before anything
    else. *)
Theorem empty_qualifier_raises_index_error
    (s c0 c1 : string) (major minor : Z)
    (E0 : int_of_text c0 = Some major) (E1 : int_of_text c1 = Some minor) :
  (forall c2 patch rest, split_dot s = c0 :: c1 :: c2 :: "" :: rest ->
   int_of_text c2 = Some patch -> from_pip_string s = Raise IndexError)
  /\ (forall rest, split_dot s = c0 :: c1 :: "" :: rest ->
      from_pip_string s = Raise IndexError).
Proof.
  split.
  - intros c2 patch rest S E2.
    rewrite (from_pip_string_components s c0 c1 c2 _ _ _ _ S E0 E1 E2).
    cbn [map]. now rewrite parse_remainder_empty_segment.
  - intros rest S.
    rewrite (from_pip_string_fused s c0 c1 "" rest _ _ S E0 E1 eq_refl).
    cbn [map]. now rewrite parse_remainder_empty_segment.
Qed.

Lemma empty_qualifier_raises_index_error_witness :
  from_pip_string "1.2.3." = Raise IndexError
  /\ from_pip_string "1.2." = Raise IndexError.
Proof.
  split.
  - apply (proj1 (empty_qualifier_raises_index_error "1.2.3." "1" "2" 1 2
                    eq_refl eq_refl) "3" 3 []); reflexivity.
  - apply (proj2 (empty_qualifier_raises_index_error "1.2." "1" "2" 1 2
                    eq_refl eq_refl) []); reflexivity.
Defined.

Ltac settle_raise H :=
  repeat (
    cbn [bind item nth_error first_char tail_from chars int _parse_type
         starts_with_int List.length Nat.ltb Nat.leb map] in H;
    match type of H with
    | Raise _ = Raise _ => injection H as <-
    | Ok _ = Raise _ => discriminate H
    | context [int_of_text ?s] => destruct (int_of_text s)
    | context [if ?b then _ else _] => destruct b
    | context [match ?l with [] => _ | _ :: _ => _ end] => destruct l
    | context [match ?x with (_, _) => _ end] => destruct x
    end).

Lemma parse_remainder_errors (l : list string) (e : exn) :
  parse_remainder (map VStr l) = Raise e -> e = ValueError \/ e = IndexError.
Proof.
  unfold parse_remainder. intro H.
  destruct l as [|x [|y [|z rest]]]; [discriminate H| | |];
    (destruct x as [|c x]; [injection H as <-; now right|]);
    settle_raise H; auto.
Qed.

Lemma init_error (major minor patch : Z) (t : option string) (n d : option Z)
    (h : option string) (e : exn) :
  __init__ major minor patch t n d h = Raise e -> e = ValueError.
Proof.
  unfold __init__. destruct (negb (is_none t) && negb (is_none d)).
  - now intros [= <-].
  - discriminate.
Qed.

Lemma parse_then_init_errors (l : list string) (major minor patch : Z) (e : exn) :
  ('(t, n, d, h) <- parse_remainder (map VStr l) ;;
   __init__ major minor patch t n d h) = Raise e ->
  e = ValueError \/ e = IndexError.
Proof.
  destruct (parse_remainder (map VStr l)) as [[[[t n] d] h]|e'] eqn:P; cbn [bind].
  - intro H. left. now apply (init_error _ _ _ _ _ _ _ _ H).
  - intros [= <-]. now apply (parse_remainder_errors l).
Qed.

(** X16.  Whatever the text, [from_pip_string] either returns a version or
    raises ValueError or IndexError; it never raises TypeError. *)
Theorem from_pip_string_errors (s : string) (e : exn)
    (R : from_pip_string s = Raise e) :
  e = ValueError \/ e = IndexError.
Proof.
  destruct (split_dot_cases s)
    as [(c0 & S) | [(c0 & c1 & S) | (c0 & c1 & c2 & rest & S)]].
  - unfold from_pip_string in R. rewrite S in R.
    cbn [map List.length Nat.ltb Nat.leb Nat.sub repeat app item nth_error bind] in R.
    unfold _is_int, int in R.
    destruct (int_of_text c0); [discriminate R | injection R as <-; now left].
  - unfold from_pip_string in R. rewrite S in R.
    cbn [map List.length Nat.ltb Nat.leb Nat.sub repeat app item nth_error bind] in R.
    unfold _is_int, int in R.
    destruct (int_of_text c0); [|injection R as <-; now left]. cbn [bind] in R.
    destruct (int_of_text c1); [discriminate R | injection R as <-; now left].
  - destruct (int_of_text c0) as [major|] eqn:E0.
    2:{ rewrite (proj1 (from_pip_string_not_integer s c0 _ S) E0) in R.
        injection R as <-. now left. }
    destruct (int_of_text c1) as [minor|] eqn:E1.
    2:{ rewrite (proj2 (from_pip_string_not_integer s c0 _ S) c1 _ major
                   eq_refl E0 E1) in R.
        injection R as <-. now left. }
    destruct (int_of_text c2) as [patch|] eqn:E2.
    + rewrite (from_pip_string_components s c0 c1 c2 rest _ _ _ S E0 E1 E2) in R.
      now apply (parse_then_init_errors rest major minor patch).
    + rewrite (from_pip_string_fused s c0 c1 c2 rest _ _ S E0 E1 E2) in R.
      now apply (parse_then_init_errors (c2 :: rest) major minor 0).
Qed.

Lemma from_pip_string_errors_witness : IndexError = ValueError \/ IndexError = IndexError.
Proof.
  apply (from_pip_string_errors "1.2.3." IndexError). reflexivity.
Defined.

(** ** Texts with qualifiers *)

Lemma no_dot_app (a b : string) : no_dot (a ++ b) = no_dot a && no_dot b.
Proof. unfold no_dot. apply all_chars_app. Qed.

Lemma no_dot_letters (t : string) : all_chars isalpha t = true -> no_dot t = true.
Proof.
  apply all_chars_impl. intros x Hx.
  apply alpha_class in Hx. destruct Hx as (_ & _ & -> & _). reflexivity.
Qed.

Lemma no_dot_prerelease_segment (t : string) (k : Z) :
  all_chars isalpha t = true -> no_dot ("0" ++ t ++ str_of_int k) = true.
Proof.
  intro A. rewrite !no_dot_app, (no_dot_letters t A), str_of_int_no_dot.
  reflexivity.
Qed.

Lemma no_dot_dev_segment (n : Z) : no_dot ("dev" ++ str_of_int n) = true.
Proof. now rewrite no_dot_app, str_of_int_no_dot. Qed.

Lemma parse_remainder_prerelease_dev (c : ascii) (letters : string) (k n : Z)
    (more : list string) :
  all_chars isalpha (String c letters) = true ->
  parse_remainder (VStr ("0" ++ String c letters ++ str_of_int k)
                   :: VStr ("dev" ++ str_of_int n) :: map VStr more)
  = Ok (Some (String c letters), Some k, Some n,
        match more with
        | g :: _ => Some (slice_from 1 g)
        | [] => None
        end).
Proof.
  intro A. unfold parse_remainder.
  rewrite starts_with_int_alpha.
  2:{ change ("0" ++ String c letters ++ str_of_int k)
        with (String "0" (String c letters ++ str_of_int k)).
      rewrite has_alpha_cons, has_alpha_app, (all_alpha_has_alpha _ _ A).
      reflexivity. }
  cbn [bind first_char append]. change (prerelease_marker "0") with true.
  cbv iota.
  change (String "0" (String c (letters ++ str_of_int k)))
    with ("0" ++ String c letters ++ str_of_int k).
  rewrite (parse_type_segment "0" letters c (str_of_int k) k eq_refl A
             (str_of_int_no_alpha k) (int_of_text_str_of_int k)).
  cbn [bind tail_from slice_from].
  rewrite int_str_of_int. cbn [bind].
  destruct more as [|g more]; reflexivity.
Qed.

(** X17.  A text in the canonical layout that carries both a prerelease
    segment and a dev segment is refused with ValueError, with or without a
    hash behind: the segments parse, and the constructor rejects the
    combination. *)
Theorem prerelease_with_dev_is_refused (v : SemanticVersion) (c : ascii)
    (letters hash : string) (k n : Z)
    (A : all_chars isalpha (String c letters) = true)
    (H : no_dot hash = true) :
  from_pip_string (brief_string v ++ "." ++ ("0" ++ String c letters ++ str_of_int k)
                   ++ "." ++ ("dev" ++ str_of_int n))
  = Raise ValueError
  /\ from_pip_string (brief_string v ++ "."
                      ++ ("0" ++ String c letters ++ str_of_int k)
                      ++ "." ++ ("dev" ++ str_of_int n) ++ "." ++ hash)
     = Raise ValueError.
Proof.
  pose proof (no_dot_prerelease_segment _ k A) as D1.
  pose proof (no_dot_dev_segment n) as D2.
  split.
  - rewrite (from_pip_string_brief v _
               ["0" ++ String c letters ++ str_of_int k; "dev" ++ str_of_int n]).
    + change (map VStr ["0" ++ String c letters ++ str_of_int k; "dev" ++ str_of_int n])
        with (VStr ("0" ++ String c letters ++ str_of_int k)
              :: VStr ("dev" ++ str_of_int n) :: map VStr []).
      rewrite (parse_remainder_prerelease_dev c letters k n [] A). reflexivity.
    + rewrite split_dot_brief. do 3 f_equal.
      rewrite (split_dot_app _ _ D1). f_equal. now apply split_dot_no_dot.
  - rewrite (from_pip_string_brief v _
               ["0" ++ String c letters ++ str_of_int k; "dev" ++ str_of_int n; hash]).
    + change (map VStr ["0" ++ String c letters ++ str_of_int k;
                        "dev" ++ str_of_int n; hash])
        with (VStr ("0" ++ String c letters ++ str_of_int k)
              :: VStr ("dev" ++ str_of_int n) :: map VStr [hash]).
      rewrite (parse_remainder_prerelease_dev c letters k n [hash] A). reflexivity.
    + rewrite split_dot_brief. do 3 f_equal.
      rewrite (split_dot_app _ _ D1). f_equal.
      rewrite (split_dot_app _ _ D2). f_equal. now apply split_dot_no_dot.
Qed.

Lemma prerelease_with_dev_is_refused_witness :
  from_pip_string (brief_string (bare 1 2 3) ++ "." ++ ("0" ++ "rc" ++ str_of_int 1)
                   ++ "." ++ ("dev" ++ str_of_int 4))
  = Raise ValueError.
Proof.
  apply (proj1 (prerelease_with_dev_is_refused (bare 1 2 3) "r" "c" "g83bef74" 1 4
                  eq_refl eq_refl)).
Defined.

Lemma release_string_prerelease (major minor patch k : Z) (c : ascii)
    (letters : string) :
  release_string (Build_version major minor patch (Some (String c letters))
                    (Some k) None None)
  = Ok (brief_string (bare major minor patch)
        ++ "." ++ ("0" ++ String c letters ++ str_of_int k)).
Proof.
  unfold release_string, _long_version.
  cbn [_prerelease_type _prerelease _dev_count _githash truthy_str truthy_int
       is_empty negb orb andb is_none bind app join fold_right str of_str of_int].
  now rewrite append_nil_r.
Qed.

Lemma release_string_dev (major minor patch n : Z) (c : ascii) (hash : string) :
  n <> 0 ->
  release_string (Build_version major minor patch None None (Some n)
                    (Some (String c hash)))
  = Ok (brief_string (bare major minor patch)
        ++ "." ++ ("dev" ++ str_of_int n) ++ "." ++ ("g" ++ String c hash)).
Proof.
  intro N. apply Z.eqb_neq in N. unfold release_string, _long_version.
  cbn [_prerelease_type _prerelease _dev_count _githash truthy_str truthy_int
       is_empty orb is_none].
  rewrite N.
  cbn [negb andb bind app join fold_right str of_str of_int].
  now rewrite append_nil_r.
Qed.

(** X18.  A text in the legacy dev layout major.minor.patch.N.gHASH, with a
    non-zero N and a non-empty HASH, parses to a version whose canonical
    rendering is major.minor.patch.devN.gHASH. *)
Theorem legacy_dev_text_is_normalised (v : SemanticVersion) (n : Z)
    (c : ascii) (hash : string)
    (N : n <> 0) (H : no_dot (String c hash) = true) :
  exists w,
    from_pip_string (brief_string v ++ "." ++ str_of_int n ++ "."
                     ++ ("g" ++ String c hash)) = Ok w
    /\ _dev_count w = Some n /\ _githash w = Some (String c hash)
    /\ release_string w
       = Ok (brief_string v ++ "." ++ ("dev" ++ str_of_int n) ++ "."
             ++ ("g" ++ String c hash)).
Proof.
  exists (Build_version (_major v) (_minor v) (_patch v) None None (Some n)
            (Some (String c hash))).
  split; [|split; [reflexivity | split; [reflexivity|]]].
  - rewrite (from_pip_string_brief v _ [str_of_int n; "g" ++ String c hash]).
    + change (map VStr [str_of_int n; "g" ++ String c hash])
        with (VStr (str_of_int n) :: VStr ("g" ++ String c hash) :: map VStr []).
      rewrite (parse_remainder_legacy _ _ [] n (int_of_text_str_of_int n) N).
      reflexivity.
    + rewrite split_dot_brief. do 3 f_equal.
      rewrite (split_dot_app _ _ (str_of_int_no_dot n)). f_equal.
      apply split_dot_no_dot. exact H.
  - now rewrite (release_string_dev _ _ _ n c hash N).
Qed.

Lemma legacy_dev_text_is_normalised_witness :
  exists w,
    from_pip_string (brief_string (bare 0 10 1) ++ "." ++ str_of_int 3 ++ "."
                     ++ ("g" ++ "83bef74")) = Ok w
    /\ _dev_count w = Some 3 /\ _githash w = Some "83bef74"
    /\ release_string w
       = Ok (brief_string (bare 0 10 1) ++ "." ++ ("dev" ++ str_of_int 3) ++ "."
             ++ ("g" ++ "83bef74")).
Proof.
  apply (legacy_dev_text_is_normalised (bare 0 10 1) 3 "8" "3bef74");
    [lia | reflexivity].
Defined.

(** X19.  A text with the prerelease fused to the minor version, as in
    "1.3.0a1", parses to a prerelease of patch level 0, and its canonical
    rendering spells the patch level out: "1.3.0.0a1". *)
Theorem fused_prerelease_text_is_normalised (major minor k : Z) (c : ascii)
    (letters : string)
    (A : all_chars isalpha (String c letters) = true) :
  exists w,
    from_pip_string (str_of_int major ++ "." ++ str_of_int minor ++ "."
                     ++ ("0" ++ String c letters ++ str_of_int k)) = Ok w
    /\ _patch w = 0 /\ _prerelease_type w = Some (String c letters)
    /\ _prerelease w = Some k
    /\ release_string w
       = Ok (str_of_int major ++ "." ++ str_of_int minor ++ "." ++ str_of_int 0
             ++ "." ++ ("0" ++ String c letters ++ str_of_int k)).
Proof.
  exists (Build_version major minor 0 (Some (String c letters)) (Some k) None None).
  split; [|split; [reflexivity | split; [reflexivity | split; [reflexivity|]]]].
  - apply (proj2 (from_pip_string_prerelease _ (str_of_int major) (str_of_int minor)
                    "" "0" letters (str_of_int k) c major minor 0 k
                    (int_of_text_str_of_int major) (int_of_text_str_of_int minor)
                    eq_refl A (str_of_int_no_alpha k) (int_of_text_str_of_int k)
                    (or_introl (ex_intro _ "" eq_refl)))).
    rewrite !split_dot_app by apply str_of_int_no_dot.
    now rewrite (split_dot_no_dot _ (no_dot_prerelease_segment _ k A)).
  - rewrite release_string_prerelease, brief_string_eq. cbn [bare _major _minor _patch].
    now rewrite !append_assoc.
Qed.

Lemma fused_prerelease_text_is_normalised_witness :
  exists w,
    from_pip_string (str_of_int 1 ++ "." ++ str_of_int 3 ++ "."
                     ++ ("0" ++ "a" ++ str_of_int 1)) = Ok w
    /\ _patch w = 0 /\ _prerelease_type w = Some "a"
    /\ _prerelease w = Some 1
    /\ release_string w
       = Ok (str_of_int 1 ++ "." ++ str_of_int 3 ++ "." ++ str_of_int 0
             ++ "." ++ ("0" ++ "a" ++ str_of_int 1)).
Proof.
  apply (fused_prerelease_text_is_normalised 1 3 1 "a" "" eq_refl).
Defined.

(** ** What comes out of the parser, and what comes back from a rendering *)

Lemma from_pip_string_constructed (s : string) (w : SemanticVersion) :
  from_pip_string s = Ok w -> constructed w = true.
Proof.
  unfold from_pip_string. intro H.
  bind_ok H as c0 E0. bind_ok H as major E1. bind_ok H as c1 E2.
  bind_ok H as minor E3. bind_ok H as c2 E4. bind_ok H as c2_is_int E5.
  bind_ok H as [patch components'] E6.
  bind_ok H as [[[t n] d] h] E7.
  now apply (init_constructed _ _ _ _ _ _ _ _ H).
Qed.

(** X20.  Every version that [from_pip_string] returns for an ASCII text
    satisfies the constructor's invariant (never a prerelease type together
    with a dev count), has a prerelease type made of letters only, which may
    be the empty text, has no serial when the prerelease type is [None], and
    has a hash without dot. *)
Theorem parsed_version_invariants (s : string) (w : SemanticVersion)
    (A : all_chars is_ascii s = true)
    (P : from_pip_string s = Ok w) :
  constructed w = true
  /\ (_prerelease_type w <> None -> _dev_count w = None)
  /\ (_prerelease_type w = None -> _prerelease w = None)
  /\ (forall t, _prerelease_type w = Some t -> all_chars isalpha t = true)
  /\ (forall h, _githash w = Some h -> no_dot h = true).
Proof.
  pose proof (from_pip_string_constructed s w P) as C.
  destruct (from_pip_string_facts s w P) as (F1 & F2 & F3).
  repeat split; try assumption.
  intro N. unfold constructed in C.
  destruct (_prerelease_type w); [|now elim N].
  destruct (_dev_count w); [discriminate C | reflexivity].
Qed.

Lemma parsed_version_invariants_witness :
  constructed (Build_version 1 2 0 None None (Some 4) (Some "1234")) = true
  /\ (_prerelease_type (Build_version 1 2 0 None None (Some 4) (Some "1234")) <> None ->
      _dev_count (Build_version 1 2 0 None None (Some 4) (Some "1234")) = None)
  /\ (_prerelease_type (Build_version 1 2 0 None None (Some 4) (Some "1234")) = None ->
      _prerelease (Build_version 1 2 0 None None (Some 4) (Some "1234")) = None)
  /\ (forall t, _prerelease_type (Build_version 1 2 0 None None (Some 4) (Some "1234"))
                = Some t -> all_chars isalpha t = true)
  /\ (forall h, _githash (Build_version 1 2 0 None None (Some 4) (Some "1234")) = Some h ->
      no_dot h = true).
Proof.
  apply (parsed_version_invariants "1.2.dev4.g1234"); reflexivity.
Defined.

(** X21.  What the round trip through the canonical rendering returns in
    general.  For a constructed version whose prerelease type is made of
    letters and whose hash has no dot, parsing the canonical text gives the
    version with the attributes that the text does not show set to [None]:
    an empty type and the serial without a type, a dev count of 0, a hash
    without a dev count, an empty hash. *)
Theorem canonical_round_trip_returns_shown (v : SemanticVersion)
    (C : constructed v = true)
    (T : forall t, _prerelease_type v = Some t -> all_chars isalpha t = true)
    (H : forall h, _githash v = Some h -> no_dot h = true) :
  exists s, release_string v = Ok s /\ from_pip_string s = Ok (shown v).
Proof.
  destruct (parsed_release_string (shown v) (shown_constructed v C)
              (shown_unambiguous v T H)) as (s & R & P).
  exists s. split; [|exact P]. now rewrite <- release_string_shown.
Qed.

Lemma canonical_round_trip_returns_shown_witness :
  exists s,
    release_string (Build_version 1 2 3 None (Some 7) (Some 0) (Some "83bef74")) = Ok s
    /\ from_pip_string s
       = Ok (shown (Build_version 1 2 3 None (Some 7) (Some 0) (Some "83bef74"))).
Proof.
  apply (canonical_round_trip_returns_shown
           (Build_version 1 2 3 None (Some 7) (Some 0) (Some "83bef74")) eq_refl).
  - intros t E. discriminate E.
  - intros h E. injection E as <-. reflexivity.
Defined.

(** ** The version_info tuple *)

Lemma getitem_type_map (t : string) :
  (exists k, t = kind_code k /\ getitem type_map t = Found (kind_name k))
  \/ ((forall k, t <> kind_code k) /\ getitem type_map t = KeyError t).
Proof.
  unfold type_map. cbn [getitem].
  destruct (String.eqb_spec "a" t) as [<-|Na]; [left; now exists alpha|].
  destruct (String.eqb_spec "b" t) as [<-|Nb]; [left; now exists beta|].
  destruct (String.eqb_spec "rc" t) as [<-|Nc]; [left; now exists candidate|].
  right. split; [|reflexivity].
  intros [| |] E; simpl in E; congruence.
Qed.

(** X22.  [version_tuple] raises KeyError exactly for a version whose
    prerelease type is a non-empty text other than a, b and rc, and the key
    it reports is that type.  Such versions exist among those the parser
    returns: "1.2.3.0x1" parses, and its tuple cannot be built. *)
Theorem version_tuple_key_error (v : SemanticVersion) (key : string) :
  version_tuple v = KeyError key
  <-> (_prerelease_type v = Some key /\ key <> ""
       /\ forall k, key <> kind_code k).
Proof.
  unfold version_tuple. destruct (_prerelease_type v) as [t|] eqn:T.
  - destruct t as [|c t].
    + cbn [truthy_str is_empty negb]. split.
      * destruct (truthy_int (_dev_count v)); discriminate.
      * intros ([= <-] & N & _). now elim N.
    + cbn [truthy_str is_empty negb str of_str].
      destruct (getitem_type_map (String c t)) as [(k & E & G) | (N & G)];
        rewrite G; split.
      * discriminate.
      * intros ([= <-] & _ & N). now elim (N k).
      * intros [= <-]. repeat split; [discriminate | exact N].
      * now intros ([= <-] & _).
  - cbn [truthy_str]. split.
    + destruct (truthy_int (_dev_count v)); discriminate.
    + intros (E & _). discriminate E.
Qed.

Lemma version_tuple_key_error_witness :
  exists w, from_pip_string "1.2.3.0x1" = Ok w /\ version_tuple w = KeyError "x".
Proof.
  exists (Build_version 1 2 3 (Some "x") (Some 1) None None).
  split; [reflexivity|].
  apply (proj2 (version_tuple_key_error
                  (Build_version 1 2 3 (Some "x") (Some 1) None None) "x")).
  split; [reflexivity|]. split; [discriminate|].
  intros [| |]; discriminate.
Defined.

Lemma version_tuple_found (v : SemanticVersion) (tu : list value) :
  constructed v = true -> version_tuple v = Found tu ->
  exists stage serial,
    tu = [VInt (_major v); VInt (_minor v); VInt (_patch v); VStr stage; VInt serial]
    /\ ((is_prerelease v = true
         /\ exists k, _prerelease_type v = Some (kind_code k)
                      /\ stage = kind_name k /\ _prerelease v = Some serial)
        \/ (is_prerelease v = false /\ is_dev v = true /\ stage = "dev"
            /\ exists n, _dev_count v = Some n /\ serial = n - 1)
        \/ (is_final v = true /\ stage = "final" /\ serial = 0)).
Proof.
  intros C. unfold version_tuple. destruct (is_prerelease v) eqn:P.
  - destruct (constructed_prerelease_fields v C P) as (t & s & T & S & _).
    unfold is_prerelease in P. rewrite P, T, S. cbn [str of_str of_int].
    destruct (getitem_type_map t) as [(k & E & G) | (N & G)]; rewrite G;
      [|discriminate].
    intros [= <-]. exists (kind_name k), s. split; [reflexivity|].
    left. split; [reflexivity|]. exists k. subst t. now repeat split.
  - unfold is_prerelease in P. rewrite P. destruct (is_dev v) eqn:D.
    + destruct (constructed_dev_fields v C D) as (n & N & _ & _).
      unfold is_dev in D. rewrite D, N. cbn [option_map of_int].
      intros [= <-]. exists "dev", (n - 1). split; [reflexivity|].
      right. left. repeat split. now exists n.
    + unfold is_dev in D. rewrite D.
      intros [= <-]. exists "final", 0. split; [reflexivity|].
      right. right. repeat split.
      unfold is_final, is_prerelease, is_dev. now rewrite P, D.
Qed.

Lemma tuple_lt_triple_before (a b : SemanticVersion) (s s' : string) (x x' : Z) :
  triple_before a b ->
  tuple_lt [VInt (_major a); VInt (_minor a); VInt (_patch a); VStr s; VInt x]
           [VInt (_major b); VInt (_minor b); VInt (_patch b); VStr s'; VInt x']
  = Ok true.
Proof.
  unfold triple_before. intro H. cbn [tuple_lt value_eqb value_lt].
  destruct (Z.eqb_spec (_major a) (_major b)) as [E1|N1].
  - destruct (Z.eqb_spec (_minor a) (_minor b)) as [E2|N2].
    + destruct (Z.eqb_spec (_patch a) (_patch b)) as [E3|N3]; [lia|].
      f_equal. apply Z.ltb_lt. lia.
    + f_equal. apply Z.ltb_lt. lia.
  - f_equal. apply Z.ltb_lt. lia.
Qed.

Lemma tuple_lt_same_triple (a b : SemanticVersion) (s s' : string) (x x' : Z) :
  same_triple a b ->
  tuple_lt [VInt (_major a); VInt (_minor a); VInt (_patch a); VStr s; VInt x]
           [VInt (_major b); VInt (_minor b); VInt (_patch b); VStr s'; VInt x']
  = Ok (String.ltb s s' || (String.eqb s s' && (x <? x'))).
Proof.
  intros (-> & -> & ->). cbn [tuple_lt value_eqb value_lt].
  rewrite !Z.eqb_refl. destruct (String.eqb s s') eqn:E; cbn [andb].
  - apply String.eqb_eq in E. subst s'. rewrite string_ltb_irrefl. cbn [orb].
    destruct (Z.eqb_spec x x') as [->|N]; [|reflexivity].
    now rewrite Z.ltb_irrefl.
  - now rewrite orb_false_r.
Qed.

Lemma kind_name_ltb (ka kb : prerelease_kind) :
  String.ltb (kind_name ka) (kind_name kb) = (kind_rank ka <? kind_rank kb).
Proof. destruct ka, kb; reflexivity. Qed.

Lemma kind_code_inj (ka kb : prerelease_kind) : kind_code ka = kind_code kb -> ka = kb.
Proof. destruct ka, kb; simpl; congruence. Qed.

(** X23.  The version_info tuple respects the order.  When a constructed
    version is [<] another and both have a tuple, the tuple of the first is
    smaller than the tuple of the second in Python's order on tuples. *)
Theorem version_tuple_is_monotone (a b : SemanticVersion) (ta tb : list value)
    (Ca : constructed a = true) (Cb : constructed b = true)
    (Va : version_tuple a = Found ta) (Vb : version_tuple b = Found tb)
    (L : __lt__ a (Version b) = Ok true) :
  tuple_lt ta tb = Ok true.
Proof.
  destruct (version_tuple_found a ta Ca Va) as (sa & xa & -> & Ka).
  destruct (version_tuple_found b tb Cb Vb) as (sb & xb & -> & Kb).
  apply (lt_true_precedes a b Ca Cb) in L.
  destruct L as [H | (T & K)]; [now apply tuple_lt_triple_before|].
  rewrite (tuple_lt_same_triple a b sa sb xa xb T). f_equal.
  destruct K as [(Pa & Pb & K) | [(Q & F) | (Da & Db & K)]].
  - destruct Ka as [(_ & ka & Ta & -> & Sa) | [(X & _) | (X & _)]];
      [| congruence | apply final_not_qualified in X; destruct X; congruence].
    destruct Kb as [(_ & kb & Tb & -> & Sb) | [(X & _) | (X & _)]];
      [| congruence | apply final_not_qualified in X; destruct X; congruence].
    destruct K as (t1 & s1 & t2 & s2 & T1 & S1 & T2 & S2 & K).
    rewrite Ta in T1. injection T1 as <-. rewrite Tb in T2. injection T2 as <-.
    rewrite Sa in S1. injection S1 as <-. rewrite Sb in S2. injection S2 as <-.
    rewrite kind_name_ltb. rewrite kind_code_ltb in K.
    destruct K as [K | (E & K)]; [now rewrite K|].
    apply kind_code_inj in E. subst kb. rewrite String.eqb_refl.
    apply Z.ltb_lt in K. rewrite K. apply orb_true_r.
  - destruct Kb as [(X & _) | [(_ & X & _) | (_ & -> & _)]];
      [apply final_not_qualified in F; destruct F; congruence
      | apply final_not_qualified in F; destruct F; congruence |].
    destruct Ka as [(_ & ka & _ & -> & _) | [(_ & _ & -> & _) | (X & _)]].
    + now destruct ka.
    + reflexivity.
    + apply final_not_qualified in X. destruct X as [X1 X2].
      rewrite X1, X2 in Q. discriminate.
  - pose proof (constructed_dev_no_type a Ca Da) as Na.
    pose proof (constructed_dev_no_type b Cb Db) as Nb.
    destruct Ka as [(X & _) | [(_ & _ & -> & na & Na' & ->) | (X & _)]];
      [unfold is_prerelease in X; rewrite Na in X; discriminate | |
       apply final_not_qualified in X; destruct X; congruence].
    destruct Kb as [(X & _) | [(_ & _ & -> & nb & Nb' & ->) | (X & _)]];
      [unfold is_prerelease in X; rewrite Nb in X; discriminate | |
       apply final_not_qualified in X; destruct X; congruence].
    destruct K as (n1 & n2 & N1 & N2 & K).
    rewrite Na' in N1. injection N1 as <-. rewrite Nb' in N2. injection N2 as <-.
    cbn. apply Z.ltb_lt. lia.
Qed.

Lemma version_tuple_is_monotone_witness :
  tuple_lt [VInt 1; VInt 3; VInt 0; VStr "candidate"; VInt 1]
           [VInt 1; VInt 3; VInt 0; VStr "final"; VInt 0] = Ok true.
Proof.
  apply (version_tuple_is_monotone
           (Build_version 1 3 0 (Some "rc") (Some 1) None None)
           (Build_version 1 3 0 None None None None)
           _ _ eq_refl eq_refl eq_refl eq_refl eq_refl).
Defined.

(** ** VersionInfo: the caches *)

Lemma semantic_version_filled (env : surroundings) (vi vi' : VersionInfo.t)
    (v : SemanticVersion) :
  VersionInfo.semantic_version env vi = Ok (v, vi') ->
  VersionInfo._semantic vi' = Some v
  /\ VersionInfo._cached_version vi' = VersionInfo._cached_version vi
  /\ VersionInfo.package vi' = VersionInfo.package vi.
Proof.
  unfold VersionInfo.semantic_version.
  destruct (VersionInfo._semantic vi) as [w|] eqn:S.
  - intros [= <- <-]. now repeat split.
  - destruct (VersionInfo._get_version_from_pkg_resources env vi) as [w|e];
      [|discriminate].
    cbn [bind]. intros [= <- <-]. now repeat split.
Qed.

Lemma semantic_version_kept (env : surroundings) (vi : VersionInfo.t)
    (v : SemanticVersion) :
  VersionInfo._semantic vi = Some v ->
  VersionInfo.semantic_version env vi = Ok (v, vi).
Proof. unfold VersionInfo.semantic_version. now intros ->. Qed.

(** X24.  [semantic_version] looks the version up once.  After a call that
    succeeded, every later call returns the same version and leaves the
    instance as it is, whatever pkg_resources and pbr.packaging would answer
    by then; [version_string] and [release_string] render that version. *)
Theorem semantic_version_is_memoised (env env' : surroundings)
    (vi vi' : VersionInfo.t) (v : SemanticVersion)
    (S : VersionInfo.semantic_version env vi = Ok (v, vi')) :
  VersionInfo.semantic_version env' vi' = Ok (v, vi')
  /\ VersionInfo.version_string env' vi' = Ok (brief_string v, vi')
  /\ VersionInfo.release_string env' vi'
     = (s <- release_string v ;; Ok (s, vi')).
Proof.
  destruct (semantic_version_filled env vi vi' v S) as (F & _).
  unfold VersionInfo.version_string, VersionInfo.release_string.
  rewrite (semantic_version_kept env' vi' v F). repeat split.
Qed.

Lemma semantic_version_is_memoised_witness :
  VersionInfo.semantic_version
    (Build_surroundings (fun _ => Installed "9.9.9") (fun _ => Raise ValueError))
    (VersionInfo.Build "pbr" None None (Some (bare 1 3 0)))
  = Ok (bare 1 3 0, VersionInfo.Build "pbr" None None (Some (bare 1 3 0))).
Proof.
  apply (proj1 (semantic_version_is_memoised
                  (Build_surroundings (fun _ => Installed "1.3.0")
                     (fun _ => Raise ValueError))
                  (Build_surroundings (fun _ => Installed "9.9.9")
                     (fun _ => Raise ValueError))
                  (VersionInfo.__init__ "pbr")
                  (VersionInfo.Build "pbr" None None (Some (bare 1 3 0)))
                  (bare 1 3 0) eq_refl)).
Defined.

Lemma brief_string_not_empty (v : SemanticVersion) (prefix : string) :
  is_empty (prefix ++ brief_string v) = false.
Proof.
  rewrite brief_string_eq. destruct prefix as [|c p]; [|reflexivity].
  cbn [append]. destruct (str_of_int (_major v)); reflexivity.
Qed.

(** X25.  [cached_version_string] keeps its first answer.  After a call
    that succeeded with some prefix, every later call returns the same text
    and leaves the instance as it is, whatever prefix it is given and
    whatever the surroundings would answer. *)
Theorem cached_version_string_keeps_first_prefix (env env' : surroundings)
    (vi vi' : VersionInfo.t) (prefix prefix' s : string)
    (S : VersionInfo.cached_version_string env vi prefix = Ok (s, vi')) :
  VersionInfo.cached_version_string env' vi' prefix' = Ok (s, vi').
Proof.
  unfold VersionInfo.cached_version_string in S.
  destruct (truthy_str (VersionInfo._cached_version vi)) eqn:T; cbn [negb] in S.
  - injection S as <- <-. unfold VersionInfo.cached_version_string.
    now rewrite T.
  - unfold VersionInfo.version_string in S.
    destruct (VersionInfo.semantic_version env vi) as [[v vi1]|e]; [|discriminate S].
    cbn [bind] in S. injection S as <- <-.
    unfold VersionInfo.cached_version_string.
    cbn [VersionInfo._cached_version truthy_str].
    now rewrite brief_string_not_empty.
Qed.

Lemma cached_version_string_keeps_first_prefix_witness :
  VersionInfo.cached_version_string
    (Build_surroundings (fun _ => DistributionNotFound) (fun _ => Raise ValueError))
    (VersionInfo.Build "pbr" None (Some ("v" ++ brief_string (bare 1 3 0)))
       (Some (bare 1 3 0)))
    "release-"
  = Ok ("v" ++ brief_string (bare 1 3 0),
        VersionInfo.Build "pbr" None (Some ("v" ++ brief_string (bare 1 3 0)))
          (Some (bare 1 3 0))).
Proof.
  apply (cached_version_string_keeps_first_prefix
           (Build_surroundings (fun _ => Installed "1.3.0") (fun _ => Raise ValueError))
           _ (VersionInfo.__init__ "pbr") _ "v" "release-").
  reflexivity.
Defined.

(** ** Renderings and the brief string *)

Lemma append_cancel_nil (a x : string) : a ++ x = a -> x = "".
Proof.
  induction a as [|c a IH]; simpl; [easy|].
  intros [= E]. now apply IH.
Qed.

Lemma long_version_qualified (v : SemanticVersion) (sep hash_sep rc : string) :
  is_prerelease v || is_dev v = true ->
  exists c suffix,
    _long_version v (Some sep) hash_sep rc
    = Ok (brief_string v ++ sep ++ String c suffix).
Proof.
  unfold is_prerelease, is_dev, _long_version. intro Q.
  cbn [is_none]. rewrite andb_false_r. cbn [bind str of_str].
  destruct (_prerelease_type v) as [[|c t]|] eqn:T; cbn [truthy_str is_empty negb] in *.
  - cbn [orb] in Q. rewrite Q.
    destruct (truthy_str (_githash v)); cbn [app join fold_right str of_str];
      exists "d"%char; eexists; reflexivity.
  - destruct (rc ++ String c t ++ str (of_int (_prerelease v))) as [|x y] eqn:E.
    { destruct rc; discriminate E. }
    destruct (truthy_int (_dev_count v));
      [destruct (truthy_str (_githash v))|];
      cbn [app join fold_right str of_str]; rewrite E;
      rewrite ?append_assoc; cbn [append]; exists x; eexists; reflexivity.
  - cbn [orb] in Q. rewrite Q.
    destruct (truthy_str (_githash v)); cbn [app join fold_right str of_str];
      exists "d"%char; eexists; reflexivity.
Qed.

(** X26.  The canonical and the debian rendering never fail, and each is
    the brief string exactly when the version has no qualifier (no non-empty
    prerelease type and no non-zero dev count); with a qualifier the brief
    string is followed by the separator and more. *)
Theorem rendering_is_brief_iff_unqualified (v : SemanticVersion) :
  (release_string v = Ok (brief_string v) <-> is_prerelease v || is_dev v = false)
  /\ (debian_string v = Ok (brief_string v) <-> is_prerelease v || is_dev v = false)
  /\ (exists s d, release_string v = Ok s /\ debian_string v = Ok d).
Proof.
  unfold release_string, debian_string.
  destruct (is_prerelease v || is_dev v) eqn:Q.
  - destruct (long_version_qualified v "." ".g" "0" Q) as (c1 & s1 & ->).
    destruct (long_version_qualified v "~" "+g" "" Q) as (c2 & s2 & ->).
    split; [|split].
    + split; [|discriminate]. intros [= E].
      apply append_cancel_nil in E. discriminate E.
    + split; [|discriminate]. intros [= E].
      apply append_cancel_nil in E. discriminate E.
    + eexists. eexists. split; reflexivity.
  - rewrite !(long_version_unqualified v _ _ _ Q).
    split; [|split]; try (split; reflexivity).
    eexists. eexists. split; reflexivity.
Qed.

Lemma rendering_is_brief_iff_unqualified_witness :
  release_string (Build_version 1 0 0 None None (Some 0) (Some "83bef74"))
  = Ok (brief_string (Build_version 1 0 0 None None (Some 0) (Some "83bef74"))).
Proof.
  apply (proj2 (proj1 (rendering_is_brief_iff_unqualified
                         (Build_version 1 0 0 None None (Some 0) (Some "83bef74"))))).
  reflexivity.
Defined.
